(** * MultisigWallet (app/main.ts): a shallow embedding and its properties

    The wallet class of [app/main.ts] is embedded as monadic actions over an
    explicit object state.  JavaScript numbers that the wallet uses as
    counters and indices are integers of [Z]; a [Buffer] is a list of byte
    values; an exception is the [Throw] outcome of an action; the [await]s
    of the asynchronous methods are sequential steps; console logging is
    left out.

    The wallet calls four external packages (bitcoinjs-lib, bip32, bip39,
    ecpair).  Their pure, table-driven parts (script assembly, push-data
    encoding, Base58, Bech32 framing, mnemonic framing, the sighash
    pre-image) are written out below after the packages' published
    behaviour; their cryptographic kernels (hash functions, curve
    operations, key stretching, wire serialisation) are the fields of the
    [Provider] class. *)

From Stdlib Require Import ZArith List String Ascii Bool Lia DecimalString.
Import ListNotations.
Open Scope Z_scope.

(** ** Buffers *)

Definition Buffer := list Z.

Definition is_byte (b : Z) : Prop := 0 <= b < 256.
Definition wf_buffer (b : Buffer) : Prop := Forall is_byte b.

Definition byteLength (b : Buffer) : Z := Z.of_nat (List.length b).

(** [Buffer.compare]: byte-lexicographic three-way comparison. *)
Fixpoint Buffer_compare (a b : Buffer) : comparison :=
  match a, b with
  | [], [] => Eq
  | [], _ :: _ => Lt
  | _ :: _, [] => Gt
  | x :: a', y :: b' =>
      match x ?= y with
      | Eq => Buffer_compare a' b'
      | c => c
      end
  end.

Definition Buffer_leb (a b : Buffer) : bool :=
  match Buffer_compare a b with Gt => false | _ => true end.

Fixpoint sortedb (l : list Buffer) : bool :=
  match l with
  | a :: ((b :: _) as tl) => Buffer_leb a b && sortedb tl
  | _ => true
  end.

(** ** Exceptions and outcomes *)

Inductive exn : Type :=
| Error (message : string)      (* [new Error(message)] raised by the wallet *)
| TypeError (origin : string).  (* raised inside a library call *)

Inductive result (A : Type) : Type :=
| Ok (a : A)
| Throw (e : exn).
Arguments Ok {A} a.
Arguments Throw {A} e.

Definition is_ok {A} (r : result A) : bool :=
  match r with Ok _ => true | Throw _ => false end.

(** ** bitcoinjs-lib: opcodes *)

Module OPS.
Definition OP_0 : Z := 0.
Definition OP_PUSHDATA1 : Z := 76.
Definition OP_PUSHDATA2 : Z := 77.
Definition OP_PUSHDATA4 : Z := 78.
Definition OP_1NEGATE : Z := 79.
Definition OP_RESERVED : Z := 80.
Definition OP_1 : Z := 81.
Definition OP_16 : Z := 96.
Definition OP_DUP : Z := 118.
Definition OP_EQUALVERIFY : Z := 136.
Definition OP_HASH160 : Z := 169.
Definition OP_CODESEPARATOR : Z := 171.
Definition OP_CHECKSIG : Z := 172.
Definition OP_CHECKMULTISIG : Z := 174.
End OPS.

(** [OP_INT_BASE = OPS.OP_RESERVED]: [OP_k = OP_INT_BASE + k] for 1 <= k <= 16. *)
Definition OP_INT_BASE : Z := OPS.OP_RESERVED.

(** ** bitcoinjs-lib: script chunks, [script.compile], [script.decompile] *)

(** An element of a decompiled script: [number | Buffer]. *)
Inductive chunk : Type :=
| Op (opcode : Z)
| Data (buf : Buffer).

Definition chunk_eqb (a b : chunk) : bool :=
  match a, b with
  | Op x, Op y => x =? y
  | Data x, Data y =>
      match Buffer_compare x y with Eq => true | _ => false end
  | _, _ => false
  end.

(** [asMinimalOP]: the opcode that stands for a buffer under the minimal
    push policy, if there is one. *)
Definition asMinimalOP (buffer : Buffer) : option Z :=
  match buffer with
  | [] => Some OPS.OP_0
  | [b] =>
      if (1 <=? b) && (b <=? 16) then Some (OP_INT_BASE + b)
      else if b =? 129 then Some OPS.OP_1NEGATE
      else None
  | _ => None
  end.

(** Little-endian unsigned integers of [k] bytes. *)
Fixpoint writeUIntLE (k : nat) (v : Z) : Buffer :=
  match k with
  | O => []
  | S k' => (v mod 256) :: writeUIntLE k' (v / 256)
  end.

Fixpoint readUIntLE (b : Buffer) : Z :=
  match b with
  | [] => 0
  | x :: b' => x + 256 * readUIntLE b'
  end.

(** [pushdata.encode]: the length prefix of a data push. *)
Definition pushdata_encode (number : Z) : Buffer :=
  if number <? OPS.OP_PUSHDATA1 then [number]
  else if number <=? 255 then OPS.OP_PUSHDATA1 :: writeUIntLE 1 number
  else if number <=? 65535 then OPS.OP_PUSHDATA2 :: writeUIntLE 2 number
  else OPS.OP_PUSHDATA4 :: writeUIntLE 4 number.

(** [pushdata.decode(buffer, offset)] on the bytes from [offset] on:
    [(size, number)], the width of the prefix and the announced length;
    [None] when the prefix is cut short. *)
Definition pushdata_decode (rest : Buffer) : option (nat * Z) :=
  match rest with
  | [] => None
  | opcode :: tl =>
      if opcode <? OPS.OP_PUSHDATA1 then Some (1%nat, opcode)
      else if opcode =? OPS.OP_PUSHDATA1 then
        if (Z.of_nat (List.length tl) <? 1) then None
        else Some (2%nat, readUIntLE (firstn 1 tl))
      else if opcode =? OPS.OP_PUSHDATA2 then
        if (Z.of_nat (List.length tl) <? 2) then None
        else Some (3%nat, readUIntLE (firstn 2 tl))
      else
        if (Z.of_nat (List.length tl) <? 4) then None
        else Some (5%nat, readUIntLE (firstn 4 tl))
  end.

Definition compile_chunk (c : chunk) : Buffer :=
  match c with
  | Data d =>
      match asMinimalOP d with
      | Some opcode => [opcode]
      | None => pushdata_encode (byteLength d) ++ d
      end
  | Op opcode => [opcode]
  end.

(** [script.compile(chunks)]. *)
Definition compile (chunks : list chunk) : Buffer :=
  flat_map compile_chunk chunks.

(** [script.decompile(buffer)]: the [while (i < buffer.length)] loop, on the
    bytes that remain; [fuel] bounds the number of iterations and
    [decompile] supplies one unit per byte. *)
Fixpoint decompile_loop (fuel : nat) (rest : Buffer) : option (list chunk) :=
  match rest with
  | [] => Some []
  | opcode :: tl =>
      match fuel with
      | O => None
      | S fuel' =>
          if (OPS.OP_0 <? opcode) && (opcode <=? OPS.OP_PUSHDATA4) then
            match pushdata_decode rest with
            | None => None
            | Some (size, number) =>
                let after := skipn size rest in
                if Z.of_nat (List.length after) <? number then None
                else
                  let data := firstn (Z.to_nat number) after in
                  let c := match asMinimalOP data with
                           | Some op => Op op
                           | None => Data data
                           end in
                  match decompile_loop fuel' (skipn (Z.to_nat number) after) with
                  | None => None
                  | Some cs => Some (c :: cs)
                  end
            end
          else
            match decompile_loop fuel' tl with
            | None => None
            | Some cs => Some (Op opcode :: cs)
            end
      end
  end.

Definition decompile (buffer : Buffer) : option (list chunk) :=
  decompile_loop (List.length buffer) buffer.

(** ** bitcoinjs-lib: networks *)

(** The fields of a network that address encoding reads. *)
Record Network : Type := {
  bech32 : string;
  pubKeyHash : Z;
  scriptHash : Z;
  wif : Z
}.

Module networks.
Definition bitcoin : Network :=
  {| bech32 := "bc"; pubKeyHash := 0; scriptHash := 5; wif := 128 |}.
Definition testnet : Network :=
  {| bech32 := "tb"; pubKeyHash := 111; scriptHash := 196; wif := 239 |}.
End networks.

(** ** bitcoinjs-lib: transactions *)

Record TxInput : Type := {
  in_hash : Buffer;
  in_index : Z;
  in_script : Buffer;
  in_sequence : Z;
  in_witness : list Buffer
}.

Record TxOutput : Type := {
  out_script : Buffer;
  out_value : Z
}.

Record Transaction : Type := {
  tx_version : Z;
  tx_locktime : Z;
  ins : list TxInput;
  outs : list TxOutput
}.

Module SIGHASH.
Definition ALL : Z := 1.
Definition NONE : Z := 2.
Definition SINGLE : Z := 3.
Definition ANYONECANPAY : Z := 128.
End SIGHASH.

(** ** The wallet's data model (app/main.ts, lines 20-46) *)

Record WalletConfig : Type := {
  cfg_network : option Network;
  cfg_derivationPath : option string
}.

(** [config = {}]. *)
Definition empty_config : WalletConfig :=
  {| cfg_network := None; cfg_derivationPath := None |}.

Record KeyPairInfo : Type := {
  mnemonic : string;
  path : string;
  publicKey : Buffer;
  privateKey : option Buffer
}.

Record Addresses : Type := {
  p2sh : string;
  p2wsh : string
}.

Record MultisigWallet : Type := {
  requiredSignatures : Z;
  totalSigners : Z;
  network : Network;
  derivationPath : string;
  keyPairs : list KeyPairInfo;
  redeemScript : option Buffer;
  addresses : option Addresses
}.

(** ** The primitive provider *)

Class Provider : Type := {
  (** the [k]-th draw of [size] bytes from the secure random source *)
  randomBytes : nat -> Z -> Buffer;
  sha256 : Buffer -> Buffer;
  hash160 : Buffer -> Buffer;
  (** bip39: the word at an index of the default word list, and PBKDF2 *)
  wordlist : Z -> string;
  mnemonicToSeed : string -> Buffer;
  (** bip32: HD nodes; [None] is a rejected seed or path *)
  bip32_node : Type;
  bip32_fromSeed : Buffer -> Network -> option bip32_node;
  bip32_derivePath : bip32_node -> string -> option bip32_node;
  bip32_publicKey : bip32_node -> Buffer;
  bip32_privateKey : bip32_node -> option Buffer;
  (** tiny-secp256k1 *)
  ecc_isPoint : Buffer -> bool;
  ecc_isPrivate : Buffer -> bool;
  ecc_sign : Buffer -> Buffer -> Buffer;
  (** transaction wire format *)
  tx_toBuffer : Transaction -> Buffer;
  Transaction_fromHex : string -> option Transaction;
  Transaction_toHex : Transaction -> string
}.

(** ** Object state and the action monad *)

(** Calls into the libraries that derive, hash, sign, parse or mutate, in
    the order the wallet makes them. *)
Inductive event : Type :=
| CallGenerateMnemonic (strength : Z)
| CallMnemonicToSeed
| CallFromSeed
| CallDerivePath (p : string)
| CallP2pkh
| CallP2sh
| CallP2wsh
| CallFromHex
| CallHashForSignature (inIndex : Z) (hashType : Z)
| CallFromPrivateKey
| CallSign
| CallSetInputScript (index : Z)
| CallToHex.

Record State : Type := {
  this : MultisigWallet;   (* the wallet object *)
  draws : nat;             (* draws made from the random source *)
  trace : list event       (* library calls so far, oldest first *)
}.

Definition M (A : Type) : Type := State -> State * result A.

Definition ret {A} (a : A) : M A := fun s => (s, Ok a).

Definition throw {A} (e : exn) : M A := fun s => (s, Throw e).

Definition bind {A B} (m : M A) (f : A -> M B) : M B :=
  fun s =>
    match m s with
    | (s', Ok a) => f a s'
    | (s', Throw e) => (s', Throw e)
    end.

Declare Scope wallet_scope.
Delimit Scope wallet_scope with wallet.
Notation "x <- m ;; k" := (bind m (fun x => k))
  (at level 61, m at next level, right associativity) : wallet_scope.
Notation "m ;; k" := (bind m (fun _ => k))
  (at level 61, right associativity) : wallet_scope.
Open Scope wallet_scope.

Definition get_this : M MultisigWallet := fun s => (s, Ok (this s)).

Definition set_this (w : MultisigWallet) : M unit :=
  fun s => ({| this := w; draws := draws s; trace := trace s |}, Ok tt).

Definition tell (e : event) : M unit :=
  fun s => ({| this := this s; draws := draws s; trace := trace s ++ [e] |}, Ok tt).

(** The outcome of a library call is lifted after the call is recorded. *)
Definition call {A} (e : event) (r : result A) : M A :=
  tell e ;; (fun s => (s, r)).

Definition initial (w : MultisigWallet) : State :=
  {| this := w; draws := 0%nat; trace := [] |}.

(** ** JavaScript helpers *)

(** [`${index}`] for an integer. *)
Definition Number_toString (n : Z) : string :=
  NilZero.string_of_int (Z.to_int n).

(** [strings.join(sep)]. *)
Fixpoint join (sep : string) (l : list string) : string :=
  match l with
  | [] => EmptyString
  | [x] => x
  | x :: tl => append x (append sep (join sep tl))
  end.

(** [s.split(c)] for a one-character separator. *)
Fixpoint split (c : ascii) (s : string) : list string :=
  match s with
  | EmptyString => [EmptyString]
  | String a s' =>
      if Ascii.eqb a c then EmptyString :: split c s'
      else match split c s' with
           | [] => [String a EmptyString]
           | w :: ws => String a w :: ws
           end
  end.

Fixpoint string_of_chars (l : list ascii) : string :=
  match l with
  | [] => EmptyString
  | a :: l' => String a (string_of_chars l')
  end.

Fixpoint has_char (c : ascii) (s : string) : bool :=
  match s with
  | EmptyString => false
  | String a s' => Ascii.eqb a c || has_char c s'
  end.

Definition charAt (s : string) (i : Z) : ascii :=
  match String.get (Z.to_nat i) s with
  | Some c => c
  | None => "?"%char
  end.

(** [!s] for [s : string | undefined]. *)
Definition falsy (s : option string) : bool :=
  match s with
  | None => true
  | Some EmptyString => true
  | Some _ => false
  end.

(** ** bip39: [generateMnemonic] *)

(** [bytesToBinary]: eight bits per byte, most significant first. *)
Fixpoint bits_of (width : nat) (v : Z) : list bool :=
  match width with
  | O => []
  | S w => Z.testbit v (Z.of_nat w) :: bits_of w v
  end.

Definition bytesToBinary (b : Buffer) : list bool := flat_map (bits_of 8) b.

(** [binaryToByte]: [parseInt(bits, 2)]. *)
Definition binaryToByte (bits : list bool) : Z :=
  fold_left (fun acc (b : bool) => 2 * acc + (if b then 1 else 0)) bits 0.

(** [bits.match(/(.{1,11})/g)]: groups of [size] bits, the last one
    possibly shorter. *)
Fixpoint chunks_of (fuel size : nat) (bits : list bool) : list (list bool) :=
  match fuel, bits with
  | _, [] => []
  | O, _ => []
  | S f, _ => firstn size bits :: chunks_of f size (skipn size bits)
  end.

Section WithProvider.
Context {P : Provider}.

Definition deriveChecksumBits (entropy : Buffer) : list bool :=
  let ENT := (List.length entropy * 8)%nat in
  let CS := (ENT / 32)%nat in
  firstn CS (bytesToBinary (sha256 entropy)).

Definition entropyToMnemonic (entropy : Buffer) : result string :=
  let len := byteLength entropy in
  if len <? 16 then Throw (TypeError "Invalid entropy")
  else if 32 <? len then Throw (TypeError "Invalid entropy")
  else if negb (len mod 4 =? 0) then Throw (TypeError "Invalid entropy")
  else
    let bits := bytesToBinary entropy ++ deriveChecksumBits entropy in
    let chunks := chunks_of (List.length bits) 11 bits in
    let words := map (fun binary => wordlist (binaryToByte binary)) chunks in
    Ok (join " " words).

(** [bip39.generateMnemonic(strength)] with the default random source and
    word list: one draw of [strength / 8] bytes. *)
Definition generateMnemonic (strength : Z) : M string :=
  tell (CallGenerateMnemonic strength) ;;
  let strength := if strength =? 0 then 128 else strength in
  if negb (strength mod 32 =? 0) then throw (TypeError "Invalid entropy")
  else
    fun s =>
      let entropy := randomBytes (draws s) (strength / 8) in
      ({| this := this s; draws := S (draws s); trace := trace s |},
       entropyToMnemonic entropy).

(** ** bs58check and bech32 *)

Definition BASE58 : string :=
  "123456789ABCDEFGHJKLMNPQRSTUVWXYZabcdefghijkmnopqrstuvwxyz".

(** The value of a buffer read as a big-endian number. *)
Definition be_value (b : Buffer) : Z :=
  fold_left (fun acc x => 256 * acc + x) b 0.

(** Base-58 digits of [n], most significant first, in front of [acc]. *)
Fixpoint base58_digits (fuel : nat) (n : Z) (acc : list Z) : list Z :=
  match fuel with
  | O => acc
  | S f => if n <=? 0 then acc
           else base58_digits f (n / 58) (n mod 58 :: acc)
  end.

Fixpoint leading_zeroes (b : Buffer) : nat :=
  match b with
  | x :: b' => if x =? 0 then S (leading_zeroes b') else O
  | [] => O
  end.

(** [bs58.encode]: one ['1'] per leading zero byte, then the base-58
    digits of the number. *)
Definition base58_encode (source : Buffer) : string :=
  string_of_chars
    (repeat "1"%char (leading_zeroes source)
     ++ map (charAt BASE58)
            (base58_digits (2 * List.length source) (be_value source) [])).

(** [bs58check.encode]: the payload and four bytes of its double SHA-256. *)
Definition bs58check_encode (payload : Buffer) : string :=
  base58_encode (payload ++ firstn 4 (sha256 (sha256 payload))).

(** [address.toBase58Check(hash, version)]. *)
Definition toBase58Check (hash : Buffer) (version : Z) : string :=
  bs58check_encode (version :: hash).

Definition BECH32 : string := "qpzry9x8gf2tvdw0s3jn54khce6mua7l".

Definition polymodStep (pre : Z) : Z :=
  let b := Z.shiftr pre 25 in
  let gen (k : Z) (g : Z) := if Z.testbit b k then g else 0 in
  Z.lxor (Z.lxor (Z.lxor (Z.lxor (Z.lxor
    (Z.shiftl (Z.land pre 33554431) 5)
    (gen 0 996825010)) (gen 1 642813549)) (gen 2 513874426))
    (gen 3 1027748829)) (gen 4 705979059).

Definition char_codes (s : string) : list Z :=
  map (fun c => Z.of_nat (nat_of_ascii c)) (list_ascii_of_string s).

Definition prefixChk (prefix : string) : Z :=
  let cs := char_codes prefix in
  let chk := fold_left (fun chk c => Z.lxor (polymodStep chk) (Z.shiftr c 5)) cs 1 in
  let chk := polymodStep chk in
  fold_left (fun chk c => Z.lxor (polymodStep chk) (Z.land c 31)) cs chk.

(** [bech32.toWords]: regroup bytes into 5-bit words, padding the last. *)
Fixpoint pad_to (n : nat) (bits : list bool) : list bool :=
  match n with
  | O => []
  | S n' => match bits with
            | [] => false :: pad_to n' []
            | b :: bits' => b :: pad_to n' bits'
            end
  end.

Definition toWords (bytes : Buffer) : list Z :=
  let bits := bytesToBinary bytes in
  map (fun g => binaryToByte (pad_to 5 g))
      (chunks_of (List.length bits) 5 bits).

(** [bech32.encode(prefix, words)] for a lower-case prefix. *)
Definition bech32_encode (prefix : string) (words : list Z) : result string :=
  if 90 <? Z.of_nat (String.length prefix) + 7 + Z.of_nat (List.length words)
  then Throw (TypeError "Exceeds length limit")
  else if existsb (fun x => negb (Z.shiftr x 5 =? 0)) words
  then Throw (Error "Non 5-bit word")
  else
    let chk := fold_left (fun chk x => Z.lxor (polymodStep chk) x)
                         words (prefixChk prefix) in
    let chk := fold_left (fun chk _ => polymodStep chk) (seq 0 6) chk in
    let chk := Z.lxor chk 1 in
    let tail := map (fun i => Z.land (Z.shiftr chk ((5 - Z.of_nat i) * 5)) 31)
                    (seq 0 6) in
    Ok (append prefix
          (String "1" (string_of_chars (map (charAt BECH32) (words ++ tail))))).

(** [address.toBech32(data, version, prefix)]. *)
Definition toBech32 (data : Buffer) (version : Z) (prefix : string) : result string :=
  bech32_encode prefix (version :: toWords data).

(** ** bitcoinjs-lib: payments *)

Record Payment : Type := {
  pay_output : option Buffer;
  pay_address : option string
}.

(** [payments.p2pkh({ pubkey, network })]. *)
Definition p2pkh (pubkey : option Buffer) (net : Network) : result Payment :=
  match pubkey with
  | None => Throw (TypeError "Not enough data")
  | Some pk =>
      if negb (ecc_isPoint pk) then Throw (TypeError "Expected property pubkey of type isPoint")
      else
        let hash := hash160 pk in
        Ok {| pay_output :=
                Some (compile [Op OPS.OP_DUP; Op OPS.OP_HASH160; Data hash;
                               Op OPS.OP_EQUALVERIFY; Op OPS.OP_CHECKSIG]);
              pay_address := Some (toBase58Check hash (pubKeyHash net)) |}
  end.

(** [payments.p2sh({ redeem: { output, network }, network })]. *)
Definition payments_p2sh (redeem_output : Buffer) (net : Network) : result Payment :=
  match decompile redeem_output with
  | None | Some [] => Throw (TypeError "Redeem.output too short")
  | Some _ =>
      let hash := hash160 redeem_output in
      Ok {| pay_output := None;
            pay_address := Some (toBase58Check hash (scriptHash net)) |}
  end.

Definition chunkHasUncompressedPubkey (c : chunk) : bool :=
  match c with
  | Data d => (byteLength d =? 65) && (nth 0 d 0 =? 4) && ecc_isPoint d
  | Op _ => false
  end.

(** [payments.p2wsh({ redeem: { output, network }, network })]. *)
Definition payments_p2wsh (redeem_output : Buffer) (net : Network) : result Payment :=
  match decompile redeem_output with
  | None | Some [] => Throw (TypeError "Redeem.output is invalid")
  | Some chunks =>
      if existsb chunkHasUncompressedPubkey chunks
      then Throw (TypeError "redeem.input or redeem.output contains uncompressed pubkey")
      else
        match toBech32 (sha256 redeem_output) 0 (bech32 net) with
        | Throw e => Throw e
        | Ok a => Ok {| pay_output := None; pay_address := Some a |}
        end
  end.

(** ** bitcoinjs-lib: [Transaction.hashForSignature], [setInputScript] *)

Definition ONE : Buffer := repeat 0 31 ++ [1].

Definition hash256 (b : Buffer) : Buffer := sha256 (sha256 b).

Definition set_sequence (v : Z) (i : TxInput) : TxInput :=
  {| in_hash := in_hash i; in_index := in_index i; in_script := in_script i;
     in_sequence := v; in_witness := in_witness i |}.

Definition set_script (sc : Buffer) (i : TxInput) : TxInput :=
  {| in_hash := in_hash i; in_index := in_index i; in_script := sc;
     in_sequence := in_sequence i; in_witness := in_witness i |}.

(** [f] applied to every element but the one at position [k]. *)
Fixpoint map_except {A} (k : nat) (f : A -> A) (l : list A) : list A :=
  match l, k with
  | [], _ => []
  | x :: l', O => x :: map f l'
  | x :: l', S k' => f x :: map_except k' f l'
  end.

(** [f] applied to the element at position [k] only. *)
Fixpoint map_at {A} (k : nat) (f : A -> A) (l : list A) : list A :=
  match l, k with
  | [], _ => []
  | x :: l', O => f x :: l'
  | x :: l', S k' => x :: map_at k' f l'
  end.

Definition BLANK_OUTPUT : TxOutput :=
  {| out_script := []; out_value := 18446744073709551615 |}.

(** [hashForSignature(inIndex, prevOutScript, hashType)].  The call first
    checks its arguments: [inIndex] must be a UInt32 (an integer from 0 to
    4294967295) and [prevOutScript] a Buffer.  [this.ins] is a JavaScript
    array and has fewer than 2^32 elements, so an index below the number of
    inputs always passes the upper bound; the bound is therefore tested on
    the indices past the last input, where it decides between the TypeError
    and the constant [ONE]. *)
Definition hashForSignature (tx : Transaction) (inIndex : Z)
    (prevOutScript : option Buffer) (hashType : Z) : result Buffer :=
  match prevOutScript with
  | None => Throw (TypeError "Expected Buffer, got undefined")
  | Some prevOutScript =>
  if inIndex <? 0 then Throw (TypeError "Expected UInt32")
  else if Z.of_nat (List.length (ins tx)) <=? inIndex then
    if 4294967295 <? inIndex then Throw (TypeError "Expected UInt32")
    else Ok ONE
  else
    match decompile prevOutScript with
    | None => Throw (TypeError "Cannot read properties of null")
    | Some chunks =>
        let k := Z.to_nat inIndex in
        let ourScript :=
          compile (filter (fun x => negb (chunk_eqb x (Op OPS.OP_CODESEPARATOR)))
                          chunks) in
        let mode := Z.land hashType 31 in
        let stage1 : option (list TxInput * list TxOutput) :=
          if mode =? SIGHASH.NONE then
            Some (map_except k (set_sequence 0) (ins tx), [])
          else if mode =? SIGHASH.SINGLE then
            if Z.of_nat (List.length (outs tx)) <=? inIndex then None
            else Some (map_except k (set_sequence 0) (ins tx),
                       repeat BLANK_OUTPUT k ++ firstn 1 (skipn k (outs tx)))
          else Some (ins tx, outs tx) in
        match stage1 with
        | None => Ok ONE
        | Some (ins1, outs1) =>
            let ins2 :=
              if negb (Z.land hashType SIGHASH.ANYONECANPAY =? 0) then
                map (set_script ourScript) (firstn 1 (skipn k ins1))
              else
                map_at k (set_script ourScript) (map (set_script []) ins1) in
            let txTmp := {| tx_version := tx_version tx;
                            tx_locktime := tx_locktime tx;
                            ins := ins2; outs := outs1 |} in
            Ok (hash256 (tx_toBuffer txTmp ++ writeUIntLE 4 hashType))
        end
    end
  end.

(** [tx.setInputScript(index, scriptSig)]: [this.ins[index].script = scriptSig]. *)
Definition setInputScript (tx : Transaction) (index : Z) (scriptSig : Buffer)
    : result Transaction :=
  if (index <? 0) || (Z.of_nat (List.length (ins tx)) <=? index)
  then Throw (TypeError "Cannot set properties of undefined (setting 'script')")
  else Ok {| tx_version := tx_version tx; tx_locktime := tx_locktime tx;
             ins := map_at (Z.to_nat index) (set_script scriptSig) (ins tx);
             outs := outs tx |}.

(** ** class MultisigWallet (app/main.ts, lines 36-255) *)

(** [constructor(requiredSignatures, totalSigners, config = {})]. *)
Definition constructor (requiredSignatures totalSigners : Z)
    (config : WalletConfig) : result MultisigWallet :=
  if requiredSignatures >? totalSigners
  then Throw (Error "Invalid signature requirements")
  else
    Ok {| requiredSignatures := requiredSignatures;
          totalSigners := totalSigners;
          network := networks.testnet;
          derivationPath :=
            match cfg_derivationPath config with
            | Some (String _ _ as p) => p
            | _ => "m/49'/0'/0'/0"
            end;
          keyPairs := [];
          redeemScript := None;
          addresses := None |}.

(** [generateKeyPair(index)]. *)
Definition generateKeyPair (index : Z) : M KeyPairInfo :=
  mnemonic <- generateMnemonic 128 ;;
  seed <- call CallMnemonicToSeed (Ok (mnemonicToSeed mnemonic)) ;;
  w <- get_this ;;
  root <- call CallFromSeed
            match bip32_fromSeed seed (network w) with
            | Some root => Ok root
            | None => Throw (TypeError "Seed should be at least 128 bits")
            end ;;
  let path := Number_toString index in
  child <- call (CallDerivePath path)
             match bip32_derivePath root path with
             | Some child => Ok child
             | None => Throw (TypeError "Expected BIP32Path")
             end ;;
  match bip32_privateKey child with
  | None => throw (Error "Failed to generate private key")
  | Some priv =>
      ret {| mnemonic := mnemonic;
             path := path;
             publicKey := bip32_publicKey child;
             privateKey := Some priv |}
  end.

Definition set_keyPairs (kps : list KeyPairInfo) (w : MultisigWallet) : MultisigWallet :=
  {| requiredSignatures := requiredSignatures w; totalSigners := totalSigners w;
     network := network w; derivationPath := derivationPath w;
     keyPairs := kps; redeemScript := redeemScript w; addresses := addresses w |}.

Definition set_redeemScript (rs : Buffer) (w : MultisigWallet) : MultisigWallet :=
  {| requiredSignatures := requiredSignatures w; totalSigners := totalSigners w;
     network := network w; derivationPath := derivationPath w;
     keyPairs := keyPairs w; redeemScript := Some rs; addresses := addresses w |}.

Definition set_addresses (a : Addresses) (w : MultisigWallet) : MultisigWallet :=
  {| requiredSignatures := requiredSignatures w; totalSigners := totalSigners w;
     network := network w; derivationPath := derivationPath w;
     keyPairs := keyPairs w; redeemScript := redeemScript w; addresses := Some a |}.

(** [createMultisigAddresses()]. *)
Definition createMultisigAddresses : M unit :=
  w <- get_this ;;
  let publicKeys := map publicKey (keyPairs w) in
  pay <- call CallP2pkh (p2pkh (nth_error publicKeys 0) (network w)) ;;
  match pay_output pay with
  | None => throw (Error "Failed to create redeem script")
  | Some redeemScript =>
      set_this (set_redeemScript redeemScript w) ;;
      p2sh <- call CallP2sh (payments_p2sh redeemScript (network w)) ;;
      p2wsh <- call CallP2wsh
                 (payments_p2wsh
                    (compile ([Op OPS.OP_1] ++ map Data publicKeys
                              ++ [Op OPS.OP_1; Op OPS.OP_CHECKMULTISIG]))
                    (network w)) ;;
      match pay_address p2sh, pay_address p2wsh with
      | Some (String _ _ as a1), Some (String _ _ as a2) =>
          w' <- get_this ;;
          set_this (set_addresses {| p2sh := a1; p2wsh := a2 |} w')
      | _, _ => throw (Error "Failed to generate addresses")
      end
  end.

(** The [for] loop of [generateWallet], from index [i] with [todo]
    iterations to go. *)
Fixpoint generateWallet_loop (todo : nat) (i : Z) : M unit :=
  match todo with
  | O => ret tt
  | S todo' =>
      keyPair <- generateKeyPair i ;;
      w <- get_this ;;
      set_this (set_keyPairs (keyPairs w ++ [keyPair]) w) ;;
      generateWallet_loop todo' (i + 1)
  end.

(** [generateWallet()]. *)
Definition generateWallet : M unit :=
  w <- get_this ;;
  generateWallet_loop (Z.to_nat (totalSigners w)) 0 ;;
  createMultisigAddresses.

Definition getDerivationPaths (w : MultisigWallet) : list string :=
  map path (keyPairs w).

Definition getPublicKeys (w : MultisigWallet) : list Buffer :=
  map publicKey (keyPairs w).

Definition getRedeemScript (w : MultisigWallet) : result Buffer :=
  match redeemScript w with
  | None => Throw (Error "Redeem script not initialized")
  | Some rs => Ok rs
  end.

Definition getAddresses (w : MultisigWallet) : option Addresses :=
  addresses w.

Definition getMnemonics (w : MultisigWallet) : list string :=
  map mnemonic (keyPairs w).

(** [signTransaction(txHex, inputIndex, keyPair)]. *)
Definition signTransaction (txHex : string) (inputIndex : Z)
    (keyPair : KeyPairInfo) : M string :=
  tx <- call CallFromHex
          match Transaction_fromHex txHex with
          | Some tx => Ok tx
          | None => Throw (Error "Buffer too small")
          end ;;
  let hashType := SIGHASH.NONE in
  w <- get_this ;;
  signatureHash <- call (CallHashForSignature inputIndex hashType)
                     (hashForSignature tx inputIndex (redeemScript w) hashType) ;;
  match privateKey keyPair with
  | None => throw (Error "Private key not found")
  | Some priv =>
      call CallFromPrivateKey
        (if ecc_isPrivate priv then Ok tt
         else Throw (TypeError "Private key not in range [1, n)")) ;;
      signature <- call CallSign (Ok (ecc_sign priv signatureHash)) ;;
      tx' <- call (CallSetInputScript inputIndex)
               (setInputScript tx inputIndex
                  (compile [Data signature; Data (publicKey keyPair)])) ;;
      call CallToHex (Ok (Transaction_toHex tx'))
  end.

End WithProvider.

(** ** Functional reading of one signer slot *)

(** What [generateKeyPair index] returns when it makes the [k]-th draw from
    the random source on network [net]. *)
Definition slot_keyPair {P : Provider} (net : Network) (k : nat) (index : Z)
    : result KeyPairInfo :=
  match entropyToMnemonic (randomBytes k 16) with
  | Throw e => Throw e
  | Ok words =>
      match bip32_fromSeed (mnemonicToSeed words) net with
      | None => Throw (TypeError "Seed should be at least 128 bits")
      | Some root =>
          match bip32_derivePath root (Number_toString index) with
          | None => Throw (TypeError "Expected BIP32Path")
          | Some child =>
              match bip32_privateKey child with
              | None => Throw (Error "Failed to generate private key")
              | Some priv =>
                  Ok {| mnemonic := words;
                        path := Number_toString index;
                        publicKey := bip32_publicKey child;
                        privateKey := Some priv |}
              end
          end
      end
  end.

(** The records of slots [i], [i+1], ... made with draws [k], [k+1], ... *)
Inductive slots {P : Provider} (net : Network) : nat -> Z -> list KeyPairInfo -> Prop :=
| slots_nil k i : slots net k i []
| slots_cons k i kp kps :
    slot_keyPair net k i = Ok kp ->
    slots net (S k) (i + 1) kps ->
    slots net k i (kp :: kps).

(** The state after [events] have been appended to the trace. *)
Definition logged (s : State) (events : list event) : State :=
  {| this := this s; draws := draws s; trace := trace s ++ events |}.

(** A key-pair record with its private key removed:
    [{ ...keyPair, privateKey: undefined }]. *)
Definition without_private (kp : KeyPairInfo) : KeyPairInfo :=
  {| mnemonic := mnemonic kp; path := path kp;
     publicKey := publicKey kp; privateKey := None |}.

Definition with_outs (o : list TxOutput) (tx : Transaction) : Transaction :=
  {| tx_version := tx_version tx; tx_locktime := tx_locktime tx;
     ins := ins tx; outs := o |}.

(** States of a wallet on which [generateWallet] has not run: the freshly
    constructed object, and whatever the other public actions make of it. *)
Inductive idle {P : Provider} : State -> Prop :=
| idle_new (m n : Z) (cfg : WalletConfig) (w : MultisigWallet) :
    constructor m n cfg = Ok w -> idle (initial w)
| idle_generateKeyPair (index : Z) (s : State) :
    idle s -> idle (fst (generateKeyPair index s))
| idle_signTransaction (txHex : string) (i : Z) (kp : KeyPairInfo) (s : State) :
    idle s -> idle (fst (signTransaction txHex i kp s)).

(** ** What the documentation asks for *)

(** The path template of the test suite and of the constructor's comment:
    [m/48'/0'/0'/2'/{index}]. *)
Definition template_path (index : Z) : string :=
  append "m/48'/0'/0'/2'/" (Number_toString index).

(** The chunks of an m-of-n multisig script:
    [OP_m pk_0 ... pk_{n-1} OP_n OP_CHECKMULTISIG]. *)
Definition multisig_chunks (m : Z) (pks : list Buffer) (n : Z) : list chunk :=
  [Op (OP_INT_BASE + m)] ++ map Data pks
  ++ [Op (OP_INT_BASE + n); Op OPS.OP_CHECKMULTISIG].

(** ** Assumptions on the provider *)

Record ProviderOK (P : Provider) : Prop := {
  randomBytes_length :
    forall k n, 0 <= n -> List.length (randomBytes k n) = Z.to_nat n;
  sha256_length : forall b, List.length (sha256 b) = 32%nat;
  sha256_bytes : forall b, wf_buffer (sha256 b);
  hash160_length : forall b, List.length (hash160 b) = 20%nat;
  hash160_bytes : forall b, wf_buffer (hash160 b);
  wordlist_no_space : forall i, has_char " " (wordlist i) = false;
  ecc_sign_length : forall priv digest, List.length (ecc_sign priv digest) = 64%nat
}.

(** ** A provider for closed examples *)

(** Constant hashes and signatures; the public key of a derived node
    depends on the first character of its path only, so that the keys of
    slots 0, 1, 2 come out in descending byte order. *)
Definition example_tx : Transaction :=
  {| tx_version := 1; tx_locktime := 0;
     ins := [ {| in_hash := repeat 170 32; in_index := 0; in_script := [];
                 in_sequence := 4294967295; in_witness := [] |} ];
     outs := [ {| out_script := repeat 0 20; out_value := 100000 |} ] |}.

Definition example_provider : Provider :=
  {| randomBytes := fun k n => repeat (Z.of_nat k mod 256) (Z.to_nat n);
     sha256 := fun _ => repeat 7 32;
     hash160 := fun _ => repeat 9 20;
     wordlist := fun _ => "zoo"%string;
     mnemonicToSeed := fun _ => repeat 3 64;
     bip32_node := string;
     bip32_fromSeed := fun _ _ => Some EmptyString;
     bip32_derivePath := fun _ p => Some p;
     bip32_publicKey := fun p => 2 :: (255 - nth 0 (char_codes p) 0) :: repeat 0 31;
     bip32_privateKey := fun _ => Some (repeat 1 32);
     ecc_isPoint := fun _ => true;
     ecc_isPrivate := fun _ => true;
     ecc_sign := fun _ _ => repeat 5 64;
     tx_toBuffer := fun _ => [];
     Transaction_fromHex := fun _ => Some example_tx;
     Transaction_toHex := fun _ => EmptyString |}.

(** The state of a 2-of-3 wallet of [example_provider] that was asked for
    the production network, after [generateWallet]. *)
Definition example_config : WalletConfig :=
  {| cfg_network := Some networks.bitcoin; cfg_derivationPath := None |}.

Definition example_wallet : MultisigWallet :=
  match @constructor 2 3 example_config with
  | Ok w => w
  | Throw _ =>
      {| requiredSignatures := 0; totalSigners := 0; network := networks.testnet;
         derivationPath := EmptyString; keyPairs := []; redeemScript := None;
         addresses := None |}
  end.

Definition example_state : State :=
  fst (@generateWallet example_provider (initial example_wallet)).

Definition example_keyPair : KeyPairInfo :=
  {| mnemonic := EmptyString; path := "0";
     publicKey := 2 :: 207 :: repeat 0 31;
     privateKey := Some (repeat 1 32) |}.

(** The outcome of signing input 0 of [example_tx] with slot 0's key. *)
Definition example_signed : State * result string :=
  @signTransaction example_provider EmptyString 0 example_keyPair example_state.

(** ** The remaining methods of the wallet (app/main.ts, lines 178-254) *)

(** JavaScript's [ToInt32], applied by the bitwise operators. *)
Definition toInt32 (z : Z) : Z := (z + 2 ^ 31) mod 2 ^ 32 - 2 ^ 31.

(** bitcoinjs-lib [script.number.encode]. *)
Definition scriptNumSize (i : Z) : nat :=
  if i >? 2147483647 then 5
  else if i >? 8388607 then 4
  else if i >? 32767 then 3
  else if i >? 127 then 2
  else if i >? 0 then 1
  else 0.

(** The loop [buffer.writeUInt8(value & 0xff, i); value >>= 8]. *)
Fixpoint number_bytes (size : nat) (value : Z) : Buffer :=
  match size with
  | O => []
  | S k => Z.land (toInt32 value) 255
           :: number_bytes k (Z.shiftr (toInt32 value) 8)
  end.

Definition number_encode (number : Z) : Buffer :=
  let value := Z.abs number in
  let size := scriptNumSize value in
  let buffer := number_bytes size value in
  let negative := number <? 0 in
  match size with
  | O => buffer
  | S k =>
      let top := nth k buffer 0 in
      if negb (Z.land top 128 =? 0)
      then firstn k buffer ++ [if negative then 128 else 0]
      else if negative then firstn k buffer ++ [Z.lor top 128]
      else buffer
  end.

(** [createInsecureMultisig()]. *)
Definition createInsecureMultisig (w : MultisigWallet) : Buffer :=
  let publicKeys := map publicKey (keyPairs w) in
  compile (map Data publicKeys
           ++ [Op OPS.OP_CHECKMULTISIG;
               Data (number_encode (requiredSignatures w));
               Data (number_encode (totalSigners w))]).

(** [createWitness(signatures)]: [[this.redeemScript!, ...signatures]]; the
    first element is [undefined] while no script is cached. *)
Definition createWitness (w : MultisigWallet) (signatures : list Buffer)
    : list (option Buffer) :=
  redeemScript w :: map Some signatures.

(** [validatePath(path)]. *)
Definition validatePath (path : string) : bool :=
  String.prefix "m/" path && (List.length (split "/" path) =? 5)%nat.

(** [validateMultisigScript(script)]. *)
Definition validateMultisigScript (script : Buffer) : bool :=
  match decompile script with
  | None => false
  | Some chunks =>
      (3 <? List.length chunks)%nat
      && match nth_error chunks (List.length chunks - 1) with
         | Some (Op opcode) => opcode =? OPS.OP_CHECKMULTISIG
         | _ => false
         end
  end.

(** ** Vocabulary for the properties of the whole object *)

(** Occurrences of a character in a string. *)
Fixpoint count_char (c : ascii) (s : string) : nat :=
  match s with
  | EmptyString => O
  | String a s' => (if Ascii.eqb a c then 1 else 0) + count_char c s'
  end.

(** The pay-to-public-key-hash script of a key. *)
Definition p2pkh_script {P : Provider} (pk : Buffer) : Buffer :=
  compile [Op OPS.OP_DUP; Op OPS.OP_HASH160; Data (hash160 pk);
           Op OPS.OP_EQUALVERIFY; Op OPS.OP_CHECKSIG].

(** The script whose hash the p2wsh address commits to. *)
Definition p2wsh_script (publicKeys : list Buffer) : Buffer :=
  compile ([Op OPS.OP_1] ++ map Data publicKeys
           ++ [Op OPS.OP_1; Op OPS.OP_CHECKMULTISIG]).

(** States that the public actions can reach from a constructed wallet. *)
Inductive reachable {P : Provider} : State -> Prop :=
| reach_new (m n : Z) (cfg : WalletConfig) (w : MultisigWallet) :
    constructor m n cfg = Ok w -> reachable (initial w)
| reach_generateWallet (s : State) :
    reachable s -> reachable (fst (generateWallet s))
| reach_generateKeyPair (index : Z) (s : State) :
    reachable s -> reachable (fst (generateKeyPair index s))
| reach_signTransaction (txHex : string) (i : Z) (kp : KeyPairInfo) (s : State) :
    reachable s -> reachable (fst (signTransaction txHex i kp s)).

(** Two wallets that differ at most in the threshold and in the stored
    derivation path. *)
Definition same_but_policy (w w' : MultisigWallet) : Prop :=
  totalSigners w = totalSigners w' /\ network w = network w'
  /\ keyPairs w = keyPairs w' /\ redeemScript w = redeemScript w'
  /\ addresses w = addresses w'.

(** Two transactions that differ at most in the scripts of their inputs. *)
Definition same_but_scripts (tx tx' : Transaction) : Prop :=
  tx_version tx = tx_version tx' /\ tx_locktime tx = tx_locktime tx'
  /\ outs tx = outs tx'
  /\ map (set_script []) (ins tx) = map (set_script []) (ins tx').

(** What every reachable wallet object satisfies. *)
Definition wallet_invariant {P : Provider} (w : MultisigWallet) : Prop :=
  requiredSignatures w <= totalSigners w
  /\ network w = networks.testnet
  /\ Forall (fun kp => privateKey kp <> None) (keyPairs w)
  /\ (addresses w <> None -> redeemScript w <> None)
  /\ (forall rs, redeemScript w = Some rs ->
        exists kp rest, keyPairs w = kp :: rest
                        /\ rs = p2pkh_script (publicKey kp)).

(** A wallet constructed with the policy (0, 0). *)
Definition signerless_wallet : MultisigWallet :=
  {| requiredSignatures := 0; totalSigners := 0; network := networks.testnet;
     derivationPath := "m/49'/0'/0'/0"; keyPairs := []; redeemScript := None;
     addresses := None |}.

(** [example_state] after a second [generateWallet]. *)
Definition example_state_twice : State :=
  fst (@generateWallet example_provider example_state).

(** A 1-of-3 wallet with a derivation path of its own. *)
Definition example_wallet_1of3 : MultisigWallet :=
  {| requiredSignatures := 1; totalSigners := 3; network := networks.testnet;
     derivationPath := "m/48'/0'/0'/2'"; keyPairs := []; redeemScript := None;
     addresses := None |}.

(** [example_tx] with a script already present on its input, and a
    provider that parses the empty string to [example_tx] and anything else
    to that second transaction. *)
Definition example_tx_presigned : Transaction :=
  {| tx_version := 1; tx_locktime := 0;
     ins := [ {| in_hash := repeat 170 32; in_index := 0;
                 in_script := [2; 48; 1];
                 in_sequence := 4294967295; in_witness := [] |} ];
     outs := [ {| out_script := repeat 0 20; out_value := 100000 |} ] |}.

Definition example_provider_two : Provider :=
  {| randomBytes := @randomBytes example_provider;
     sha256 := @sha256 example_provider;
     hash160 := @hash160 example_provider;
     wordlist := @wordlist example_provider;
     mnemonicToSeed := @mnemonicToSeed example_provider;
     bip32_node := string;
     bip32_fromSeed := fun _ _ => Some EmptyString;
     bip32_derivePath := fun _ p => Some p;
     bip32_publicKey := fun p => 2 :: (255 - nth 0 (char_codes p) 0) :: repeat 0 31;
     bip32_privateKey := fun _ => Some (repeat 1 32);
     ecc_isPoint := fun _ => true;
     ecc_isPrivate := fun _ => true;
     ecc_sign := fun _ _ => repeat 5 64;
     tx_toBuffer := fun _ => [];
     Transaction_fromHex :=
       fun h => if String.eqb h EmptyString then Some example_tx
                else Some example_tx_presigned;
     Transaction_toHex := fun _ => EmptyString |}.

Definition example_state_two : State :=
  fst (@generateWallet example_provider_two (initial example_wallet)).



(** ** Round trip of ordinary scripts *)

(** A chunk that [compile] writes and [decompile] reads back unchanged: an
    opcode byte outside the push range, or a buffer of 2 to 75 bytes. *)
Definition plain_chunk (c : chunk) : Prop :=
  match c with
  | Op o => o = 0 \/ OPS.OP_PUSHDATA4 < o < 256
  | Data d => (2 <= List.length d <= 75)%nat
  end.

Lemma compile_cons (c : chunk) (cs : list chunk) :
  compile (c :: cs) = compile_chunk c ++ compile cs.
Proof. reflexivity. Qed.

Lemma asMinimalOP_long (d : Buffer) :
  (2 <= List.length d)%nat -> asMinimalOP d = None.
Proof.
  destruct d as [|x [|y d']]; simpl; intros H; try lia; reflexivity.
Qed.

Lemma decompile_loop_compile (cs : list chunk) :
  Forall plain_chunk cs ->
  forall fuel, (List.length (compile cs) <= fuel)%nat ->
  decompile_loop fuel (compile cs) = Some cs.
Proof.
  induction 1 as [|c cs Hc Hcs IH]; intros fuel Hfuel.
  - destruct fuel; reflexivity.
  - rewrite compile_cons in *. destruct c as [o|d]; cbn [plain_chunk] in Hc.
    + cbn [compile_chunk app List.length] in *.
      destruct fuel as [|fuel]; [lia|].
      cbn [decompile_loop].
      assert (Hr : ((OPS.OP_0 <? o) && (o <=? OPS.OP_PUSHDATA4)) = false).
      { unfold OPS.OP_0, OPS.OP_PUSHDATA4 in *.
        destruct Hc as [->|Hc]; [reflexivity|].
        apply andb_false_iff; right; apply Z.leb_gt; lia. }
      rewrite Hr, IH by lia. reflexivity.
    + unfold compile_chunk in *. rewrite (asMinimalOP_long d) in * by lia.
      unfold pushdata_encode, byteLength in *.
      assert (Hlt : (Z.of_nat (List.length d) <? OPS.OP_PUSHDATA1) = true)
        by (apply Z.ltb_lt; unfold OPS.OP_PUSHDATA1; lia).
      rewrite Hlt in *. cbn [app List.length] in *.
      destruct fuel as [|fuel]; [lia|].
      cbn [decompile_loop].
      assert (Hr : ((OPS.OP_0 <? Z.of_nat (List.length d))
                    && (Z.of_nat (List.length d) <=? OPS.OP_PUSHDATA4)) = true).
      { apply andb_true_iff; split;
          [apply Z.ltb_lt|apply Z.leb_le];
          unfold OPS.OP_0, OPS.OP_PUSHDATA4; lia. }
      rewrite Hr. cbn [pushdata_decode]. rewrite Hlt. cbn [skipn].
      rewrite length_app in *.
      assert (Hge : (Z.of_nat (List.length d + List.length (compile cs))
                     <? Z.of_nat (List.length d)) = false)
        by (apply Z.ltb_ge; lia).
      rewrite Hge, Nat2Z.id.
      rewrite firstn_app, firstn_all, Nat.sub_diag, firstn_O, app_nil_r.
      rewrite skipn_app, skipn_all, Nat.sub_diag, skipn_O. cbn [app].
      rewrite (asMinimalOP_long d) by lia.
      rewrite IH by lia. reflexivity.
Qed.

Lemma decompile_compile (cs : list chunk) :
  Forall plain_chunk cs -> decompile (compile cs) = Some cs.
Proof.
  intros H. unfold decompile. apply decompile_loop_compile; auto.
Qed.

(** ** Reasoning about actions *)

Lemma bind_ok {A B} (m : M A) (f : A -> M B) (s s' : State) (b : B) :
  bind m f s = (s', Ok b) ->
  exists s1 a, m s = (s1, Ok a) /\ f a s1 = (s', Ok b).
Proof.
  unfold bind. destruct (m s) as [s1 [a|e]]; intros H.
  - exists s1, a. auto.
  - discriminate.
Qed.

Lemma call_ok {A} (e : event) (r : result A) (s s' : State) (a : A) :
  call e r s = (s', Ok a) -> r = Ok a /\ s' = logged s [e].
Proof.
  unfold call, bind, tell, logged. simpl. intros H; inversion H; subst. auto.
Qed.

Lemma call_run {A} (e : event) (r : result A) (s : State) :
  call e r s = (logged s [e], r).
Proof. reflexivity. Qed.

Lemma logged_logged (s : State) (l1 l2 : list event) :
  logged (logged s l1) l2 = logged s (l1 ++ l2).
Proof. unfold logged; simpl. now rewrite <- app_assoc. Qed.

Section Proofs.
Context {P : Provider}.

(** ** One signer slot *)

Lemma generateMnemonic_128 (s : State) :
  generateMnemonic 128 s =
  ({| this := this s; draws := S (draws s);
      trace := trace s ++ [CallGenerateMnemonic 128] |},
   entropyToMnemonic (randomBytes (draws s) 16)).
Proof. reflexivity. Qed.

Lemma generateKeyPair_result (index : Z) (s : State) :
  snd (generateKeyPair index s)
  = slot_keyPair (network (this s)) (draws s) index.
Proof.
  unfold generateKeyPair, slot_keyPair, bind.
  rewrite generateMnemonic_128.
  destruct (entropyToMnemonic _) as [words|e]; [|reflexivity].
  rewrite call_run. unfold get_this. cbn [this logged].
  rewrite call_run.
  destruct (bip32_fromSeed _ _) as [root|]; [|reflexivity].
  rewrite call_run.
  destruct (bip32_derivePath _ _) as [child|]; [|reflexivity].
  destruct (bip32_privateKey child); reflexivity.
Qed.

Lemma generateKeyPair_this (index : Z) (s : State) :
  this (fst (generateKeyPair index s)) = this s.
Proof.
  unfold generateKeyPair, bind.
  rewrite generateMnemonic_128.
  destruct (entropyToMnemonic _) as [words|e]; [|reflexivity].
  rewrite call_run. unfold get_this. cbn [this logged].
  rewrite call_run.
  destruct (bip32_fromSeed _ _) as [root|]; [|reflexivity].
  rewrite call_run.
  destruct (bip32_derivePath _ _) as [child|]; [|reflexivity].
  destruct (bip32_privateKey child); reflexivity.
Qed.

Lemma generateKeyPair_draws (index : Z) (s : State) :
  draws (fst (generateKeyPair index s)) = S (draws s).
Proof.
  unfold generateKeyPair, bind.
  rewrite generateMnemonic_128.
  destruct (entropyToMnemonic _) as [words|e]; [|reflexivity].
  rewrite call_run. unfold get_this. cbn [this logged].
  rewrite call_run.
  destruct (bip32_fromSeed _ _) as [root|]; [|reflexivity].
  rewrite call_run.
  destruct (bip32_derivePath _ _) as [child|]; [|reflexivity].
  destruct (bip32_privateKey child); reflexivity.
Qed.

Lemma generateKeyPair_ok (index : Z) (s s' : State) (kp : KeyPairInfo) :
  generateKeyPair index s = (s', Ok kp) ->
  this s' = this s /\ draws s' = S (draws s)
  /\ slot_keyPair (network (this s)) (draws s) index = Ok kp.
Proof.
  intros H.
  pose proof (generateKeyPair_this index s) as Ht.
  pose proof (generateKeyPair_draws index s) as Hd.
  pose proof (generateKeyPair_result index s) as Hr.
  rewrite H in *. simpl in *. auto.
Qed.

Lemma slot_keyPair_path (net : Network) (k : nat) (index : Z) (kp : KeyPairInfo) :
  slot_keyPair net k index = Ok kp -> path kp = Number_toString index.
Proof.
  unfold slot_keyPair.
  destruct (entropyToMnemonic _); [|discriminate].
  destruct (bip32_fromSeed _ _); [|discriminate].
  destruct (bip32_derivePath _ _); [|discriminate].
  destruct (bip32_privateKey _); [|discriminate].
  intros H; inversion H; reflexivity.
Qed.

(** ** The key-generation loop *)

Lemma generateWallet_loop_ok (todo : nat) :
  forall (i : Z) (s s' : State),
  generateWallet_loop todo i s = (s', Ok tt) ->
  exists kps,
    this s' = set_keyPairs (keyPairs (this s) ++ kps) (this s)
    /\ List.length kps = todo
    /\ slots (network (this s)) (draws s) i kps.
Proof.
  induction todo as [|todo IH]; intros i s s' H.
  - cbn in H. inversion H; subst. exists []. rewrite app_nil_r.
    repeat split; [destruct (this s'); reflexivity | constructor].
  - cbn [generateWallet_loop] in H.
    apply bind_ok in H as (s1 & kp & Hkp & H).
    apply generateKeyPair_ok in Hkp as (Ht & Hd & Hslot).
    unfold bind, get_this, set_this in H. cbn in H.
    apply IH in H as (kps & Hthis & Hlen & Hslots). cbn in Hthis, Hslots.
    exists (kp :: kps). rewrite Hthis, Ht. cbn.
    rewrite <- app_assoc. repeat split; [now rewrite Hlen|].
    constructor; [assumption|]. now rewrite Ht, Hd in Hslots.
Qed.

Lemma slots_paths (net : Network) (k : nat) (i : Z) (kps : list KeyPairInfo) :
  slots net k i kps ->
  map path kps
  = map (fun j => Number_toString (i + Z.of_nat j)) (seq 0 (List.length kps)).
Proof.
  induction 1 as [|k i kp kps Hkp Hs IH]; [reflexivity|].
  cbn. rewrite Z.add_0_r, (slot_keyPair_path _ _ _ _ Hkp). f_equal.
  rewrite IH, <- seq_shift, map_map. apply map_ext. intros j. f_equal. lia.
Qed.

(** ** Script and addresses *)

Lemma createMultisigAddresses_ok (s s' : State) :
  createMultisigAddresses s = (s', Ok tt) ->
  exists pk0 rest a1 a2,
    map publicKey (keyPairs (this s)) = pk0 :: rest
    /\ let rs := compile [Op OPS.OP_DUP; Op OPS.OP_HASH160; Data (hash160 pk0);
                          Op OPS.OP_EQUALVERIFY; Op OPS.OP_CHECKSIG] in
       this s' = set_addresses {| p2sh := a1; p2wsh := a2 |}
                   (set_redeemScript rs (this s))
       /\ a1 = toBase58Check (hash160 rs) (scriptHash (network (this s)))
       /\ toBech32
            (sha256 (compile ([Op OPS.OP_1] ++ map Data (pk0 :: rest)
                              ++ [Op OPS.OP_1; Op OPS.OP_CHECKMULTISIG])))
            0 (bech32 (network (this s))) = Ok a2.
Proof.
  unfold createMultisigAddresses. intros H.
  apply bind_ok in H as (s1 & w & Hw & H).
  unfold get_this in Hw. inversion Hw; subst s1 w; clear Hw.
  apply bind_ok in H as (s1 & pay & Hpay & H).
  apply call_ok in Hpay as (Hpay & ->).
  unfold p2pkh in Hpay.
  destruct (map publicKey (keyPairs (this s))) as [|pk0 rest] eqn:Hpks;
    cbn [nth_error] in Hpay; [discriminate|].
  destruct (negb (ecc_isPoint pk0)); [discriminate|].
  inversion Hpay; subst pay; clear Hpay. cbn [pay_output] in H.
  apply bind_ok in H as (s1 & [] & Hset & H).
  unfold set_this in Hset. inversion Hset; subst s1; clear Hset.
  apply bind_ok in H as (s1 & pay1 & Hp1 & H).
  apply call_ok in Hp1 as (Hp1 & ->).
  apply bind_ok in H as (s1 & pay2 & Hp2 & H).
  apply call_ok in Hp2 as (Hp2 & ->).
  unfold payments_p2sh in Hp1.
  destruct (decompile _) as [[|c cs]|]; try discriminate.
  inversion Hp1; subst pay1; clear Hp1.
  unfold payments_p2wsh in Hp2.
  destruct (decompile _) as [[|c' cs']|]; try discriminate.
  destruct (existsb _ _); [discriminate|].
  destruct (toBech32 _ _ _) as [a|e] eqn:Hb; [|discriminate].
  inversion Hp2; subst pay2; clear Hp2.
  cbn [pay_address] in H.
  destruct (toBase58Check _ _) as [|c1 a1] eqn:Ha1; [discriminate|].
  destruct a as [|c2 a2]; [discriminate|].
  unfold bind, get_this, set_this in H. cbn in H.
  inversion H; subst s'; clear H.
  exists pk0, rest, (String c1 a1), (String c2 a2). cbn.
  repeat split; auto.
Qed.

Lemma generateWallet_ok (s s' : State) :
  generateWallet s = (s', Ok tt) ->
  exists kps pk0 rest a1 a2,
    List.length kps = Z.to_nat (totalSigners (this s))
    /\ slots (network (this s)) (draws s) 0 kps
    /\ map publicKey (keyPairs (this s) ++ kps) = pk0 :: rest
    /\ let rs := compile [Op OPS.OP_DUP; Op OPS.OP_HASH160; Data (hash160 pk0);
                          Op OPS.OP_EQUALVERIFY; Op OPS.OP_CHECKSIG] in
       this s' = set_addresses {| p2sh := a1; p2wsh := a2 |}
                   (set_redeemScript rs
                      (set_keyPairs (keyPairs (this s) ++ kps) (this s)))
       /\ a1 = toBase58Check (hash160 rs) (scriptHash (network (this s)))
       /\ toBech32
            (sha256 (compile ([Op OPS.OP_1] ++ map Data (pk0 :: rest)
                              ++ [Op OPS.OP_1; Op OPS.OP_CHECKMULTISIG])))
            0 (bech32 (network (this s))) = Ok a2.
Proof.
  unfold generateWallet. intros H.
  apply bind_ok in H as (s1 & w & Hw & H).
  unfold get_this in Hw. inversion Hw; subst s1 w; clear Hw.
  apply bind_ok in H as (s1 & [] & Hloop & H).
  apply generateWallet_loop_ok in Hloop as (kps & Hthis & Hlen & Hslots).
  apply createMultisigAddresses_ok in H as (pk0 & rest & a1 & a2 & Hpks & H).
  rewrite Hthis in Hpks, H. cbn in Hpks, H.
  exists kps, pk0, rest, a1, a2. cbn. tauto.
Qed.

Lemma constructor_ok (m n : Z) (cfg : WalletConfig) (w : MultisigWallet) :
  constructor m n cfg = Ok w ->
  requiredSignatures w = m /\ totalSigners w = n
  /\ network w = networks.testnet /\ keyPairs w = []
  /\ redeemScript w = None /\ addresses w = None.
Proof.
  unfold constructor. destruct (m >? n); [discriminate|].
  intros H; inversion H; cbn. tauto.
Qed.

End Proofs.

(** ** Construction *)

Lemma constructor_is_ok (m n : Z) (cfg : WalletConfig) :
  is_ok (constructor m n cfg) = negb (m >? n).
Proof. unfold constructor. destruct (m >? n); reflexivity. Qed.

(** C3: construction is expected to fail for every policy with m > n, or
    m < 1, or n < 1.  The constructor tests m > n only: it succeeds exactly
    when m <= n, so the policies (0, 3), (-1, 3) and (0, 0), which the test
    suite expects to be refused, construct a wallet. *)
Theorem constructor_admits_nonpositive_policy :
  (forall m n cfg, is_ok (constructor m n cfg) = (m <=? n))
  /\ is_ok (constructor 0 3 empty_config) = true
  /\ is_ok (constructor (-1) 3 empty_config) = true
  /\ is_ok (constructor 0 0 empty_config) = true.
Proof.
  split; [|repeat split].
  intros m n cfg. rewrite constructor_is_ok.
  rewrite Z.gtb_ltb, Z.leb_antisym. reflexivity.
Qed.

(** ** Derivation paths *)

Lemma length_append (a b : string) :
  String.length (append a b) = (String.length a + String.length b)%nat.
Proof. induction a as [|c a IH]; cbn; [reflexivity | now rewrite IH]. Qed.

Lemma bare_index_is_not_template (index : Z) :
  Number_toString index <> template_path index.
Proof.
  intros H. apply (f_equal String.length) in H.
  unfold template_path in H. rewrite length_append in H.
  change (String.length "m/48'/0'/0'/2'/") with 15%nat in H. lia.
Qed.

Lemma generateKeyPair_path {P : Provider} (index : Z) (s s' : State)
    (kp : KeyPairInfo) :
  generateKeyPair index s = (s', Ok kp) -> path kp = Number_toString index.
Proof.
  intros H. apply generateKeyPair_ok in H as (_ & _ & H).
  eapply slot_keyPair_path; eauto.
Qed.

(** C5: the path recorded for signer slot i is expected to be
    m/48'/0'/0'/2'/i.  The wallet records the bare decimal index: after
    [generateWallet] the paths are "0", "1", ..., "n-1", and none of them is
    the template path of its slot. *)
Theorem derivation_paths_are_bare_indices {P : Provider}
    (m n : Z) (cfg : WalletConfig) (w : MultisigWallet) (s' : State) :
  constructor m n cfg = Ok w ->
  generateWallet (initial w) = (s', Ok tt) ->
  getDerivationPaths (this s')
  = map (fun j => Number_toString (Z.of_nat j)) (seq 0 (Z.to_nat n))
  /\ forall j p, nth_error (getDerivationPaths (this s')) j = Some p ->
       p = Number_toString (Z.of_nat j) /\ p <> template_path (Z.of_nat j).
Proof.
  intros Hc Hg.
  apply constructor_ok in Hc as (_ & Hn & _ & Hk & _).
  apply generateWallet_ok in Hg
    as (kps & pk0 & rest & a1 & a2 & Hlen & Hslots & _ & Hthis & _).
  cbn in Hlen, Hslots, Hthis. rewrite Hk in Hthis. cbn in Hthis.
  assert (Hpaths : getDerivationPaths (this s')
          = map (fun j => Number_toString (Z.of_nat j)) (seq 0 (Z.to_nat n))).
  { unfold getDerivationPaths. rewrite Hthis. cbn.
    rewrite (slots_paths _ _ _ _ Hslots), Hlen, Hn. reflexivity. }
  split; [exact Hpaths|].
  intros j p Hj. rewrite Hpaths in Hj.
  rewrite nth_error_map in Hj.
  destruct (nth_error (seq 0 (Z.to_nat n)) j) as [k|] eqn:Hk'; [|discriminate].
  cbn in Hj. inversion Hj; subst p.
  assert (Hlt : (j < List.length (seq 0 (Z.to_nat n)))%nat)
    by (apply nth_error_Some; congruence).
  apply nth_error_nth with (d := 0%nat) in Hk'.
  rewrite length_seq in *. rewrite seq_nth in Hk' by lia. subst k. cbn.
  split; [reflexivity | apply bare_index_is_not_template].
Qed.

Lemma derivation_paths_witness :
  getDerivationPaths (this example_state)
  = map (fun j => Number_toString (Z.of_nat j)) (seq 0 (Z.to_nat 3))
  /\ forall j p, nth_error (getDerivationPaths (this example_state)) j = Some p ->
       p = Number_toString (Z.of_nat j) /\ p <> template_path (Z.of_nat j).
Proof.
  apply (derivation_paths_are_bare_indices (P := example_provider)
           2 3 example_config example_wallet example_state);
    vm_compute; reflexivity.
Defined.

(** ** Signing, step by step *)

Lemma signTransaction_run {P : Provider} (txHex : string) (inputIndex : Z)
    (keyPair : KeyPairInfo) (s : State) :
  signTransaction txHex inputIndex keyPair s =
  match Transaction_fromHex txHex with
  | None => (logged s [CallFromHex], Throw (Error "Buffer too small"))
  | Some tx =>
      let hashed := [CallFromHex; CallHashForSignature inputIndex SIGHASH.NONE] in
      match hashForSignature tx inputIndex (redeemScript (this s)) SIGHASH.NONE with
      | Throw e => (logged s hashed, Throw e)
      | Ok signatureHash =>
          match privateKey keyPair with
          | None => (logged s hashed, Throw (Error "Private key not found"))
          | Some priv =>
              if ecc_isPrivate priv then
                let signed := hashed ++ [CallFromPrivateKey; CallSign;
                                         CallSetInputScript inputIndex] in
                match setInputScript tx inputIndex
                        (compile [Data (ecc_sign priv signatureHash);
                                  Data (publicKey keyPair)]) with
                | Throw e => (logged s signed, Throw e)
                | Ok tx' => (logged s (signed ++ [CallToHex]),
                             Ok (Transaction_toHex tx'))
                end
              else (logged s (hashed ++ [CallFromPrivateKey]),
                    Throw (TypeError "Private key not in range [1, n)"))
          end
      end
  end.
Proof.
  unfold signTransaction, bind. rewrite call_run.
  destruct (Transaction_fromHex txHex) as [tx|]; [|reflexivity].
  unfold get_this. cbn [this logged]. rewrite call_run.
  change (this (logged s [CallFromHex])) with (this s).
  destruct (hashForSignature _ _ _ _) as [d|e];
    [|rewrite logged_logged; reflexivity].
  destruct (privateKey keyPair) as [priv|];
    [|unfold throw; rewrite logged_logged; reflexivity].
  rewrite call_run.
  destruct (ecc_isPrivate priv);
    [|rewrite !logged_logged; reflexivity].
  rewrite call_run, call_run.
  destruct (setInputScript _ _ _) as [tx'|e];
    [rewrite call_run|]; rewrite !logged_logged; reflexivity.
Qed.

Lemma signTransaction_this {P : Provider} (txHex : string) (i : Z)
    (kp : KeyPairInfo) (s : State) :
  this (fst (signTransaction txHex i kp s)) = this s.
Proof.
  rewrite signTransaction_run.
  destruct (Transaction_fromHex txHex); [|reflexivity]. cbv zeta.
  destruct (hashForSignature _ _ _ _); [|reflexivity].
  destruct (privateKey kp); [|reflexivity].
  destruct (ecc_isPrivate _); [|reflexivity].
  destruct (setInputScript _ _ _); reflexivity.
Qed.

(** ** Before and after [generateWallet] *)

Lemma idle_uninitialized {P : Provider} (s : State) :
  idle s -> redeemScript (this s) = None /\ addresses (this s) = None.
Proof.
  induction 1 as [m n cfg w Hc | index s Hs IH | txHex i kp s Hs IH].
  - apply constructor_ok in Hc. cbn. tauto.
  - now rewrite generateKeyPair_this.
  - now rewrite signTransaction_this.
Qed.

(** C10: on a wallet on which [generateWallet] has not run (as constructed,
    or after any calls of [generateKeyPair] and [signTransaction]),
    [getRedeemScript] throws "Redeem script not initialized" and
    [getAddresses] returns undefined; once [generateWallet] has succeeded,
    [getRedeemScript] returns the cached script. *)
Theorem getters_before_and_after_generateWallet {P : Provider} (s : State) :
  idle s ->
  getRedeemScript (this s) = Throw (Error "Redeem script not initialized")
  /\ getAddresses (this s) = None
  /\ forall s', generateWallet s = (s', Ok tt) ->
       exists rs, redeemScript (this s') = Some rs
                  /\ getRedeemScript (this s') = Ok rs.
Proof.
  intros Hidle. apply idle_uninitialized in Hidle as (Hrs & Ha).
  unfold getRedeemScript, getAddresses. rewrite Hrs, Ha.
  repeat split. intros s' Hg.
  apply generateWallet_ok in Hg
    as (kps & pk0 & rest & a1 & a2 & _ & _ & _ & Hthis & _).
  cbn in Hthis. rewrite Hthis. cbn. eauto.
Qed.

Lemma getters_witness :
  getRedeemScript example_wallet = Throw (Error "Redeem script not initialized")
  /\ getAddresses example_wallet = None
  /\ exists rs, redeemScript (this example_state) = Some rs
                /\ getRedeemScript (this example_state) = Ok rs.
Proof.
  destruct (getters_before_and_after_generateWallet (P := example_provider)
              (initial example_wallet)) as (H1 & H2 & H3).
  - apply (idle_new 2 3 example_config). reflexivity.
  - split; [exact H1|]. split; [exact H2|].
    apply H3. vm_compute. reflexivity.
Defined.

(** ** The example provider meets the assumptions *)

Lemma repeat_bytes (v : Z) (n : nat) : is_byte v -> wf_buffer (repeat v n).
Proof. intros Hv. apply Forall_forall. intros x Hx. now apply repeat_spec in Hx as ->. Qed.

Lemma example_provider_ok : ProviderOK example_provider.
Proof.
  split; cbn [randomBytes sha256 hash160 wordlist ecc_sign example_provider];
    intros; try reflexivity.
  - apply repeat_length.
  - apply repeat_bytes; unfold is_byte; lia.
  - apply repeat_bytes; unfold is_byte; lia.
Qed.

(** ** The redeem script *)

Lemma p2pkh_script_decompiles {P : Provider} (HP : ProviderOK P) (pk : Buffer) :
  let cs := [Op OPS.OP_DUP; Op OPS.OP_HASH160; Data (hash160 pk);
             Op OPS.OP_EQUALVERIFY; Op OPS.OP_CHECKSIG] in
  decompile (compile cs) = Some cs.
Proof.
  cbv zeta. apply decompile_compile.
  repeat apply Forall_cons; try apply Forall_nil; cbn [plain_chunk];
    try (right; split; reflexivity).
  rewrite (hash160_length P HP); lia.
Qed.

Lemma last_multisig_chunks (m n : Z) (pks : list Buffer) :
  last (multisig_chunks m pks n) (Op 0) = Op OPS.OP_CHECKMULTISIG.
Proof.
  unfold multisig_chunks.
  change [Op (OP_INT_BASE + n); Op OPS.OP_CHECKMULTISIG]
    with ([Op (OP_INT_BASE + n)] ++ [Op OPS.OP_CHECKMULTISIG]).
  rewrite !app_assoc. apply last_last.
Qed.

(** C1: the cached redeem script is expected to decompile to the n + 3
    elements OP_m, pk_0 ... pk_{n-1}, OP_n, OP_CHECKMULTISIG.  The wallet
    caches the pay-to-public-key-hash script of the first public key
    instead: five elements, OP_DUP OP_HASH160 hash160(pk_0) OP_EQUALVERIFY
    OP_CHECKSIG, whatever m and n are; that is never the multisig script. *)
Theorem redeem_script_is_single_key_p2pkh {P : Provider} (HP : ProviderOK P)
    (m n : Z) (cfg : WalletConfig) (w : MultisigWallet) (s' : State) :
  constructor m n cfg = Ok w ->
  generateWallet (initial w) = (s', Ok tt) ->
  exists pk0 rest rs,
    getPublicKeys (this s') = pk0 :: rest
    /\ getRedeemScript (this s') = Ok rs
    /\ decompile rs = Some [Op OPS.OP_DUP; Op OPS.OP_HASH160; Data (hash160 pk0);
                            Op OPS.OP_EQUALVERIFY; Op OPS.OP_CHECKSIG]
    /\ decompile rs <> Some (multisig_chunks m (getPublicKeys (this s')) n).
Proof.
  intros Hc Hg.
  apply constructor_ok in Hc as (_ & _ & _ & Hk & _).
  apply generateWallet_ok in Hg
    as (kps & pk0 & rest & a1 & a2 & _ & _ & Hpks & Hthis & _).
  cbn in Hpks, Hthis. rewrite Hk in Hpks, Hthis. cbn in Hpks, Hthis.
  exists pk0, rest.
  eexists. unfold getPublicKeys, getRedeemScript. rewrite Hthis. cbn [keyPairs redeemScript set_addresses set_redeemScript set_keyPairs].
  split; [exact Hpks|]. split; [reflexivity|].
  pose proof (p2pkh_script_decompiles HP pk0) as Hd. cbv zeta in Hd.
  split; [exact Hd|].
  intros Heq.
  assert (Hcs : [Op OPS.OP_DUP; Op OPS.OP_HASH160; Data (hash160 pk0);
                 Op OPS.OP_EQUALVERIFY; Op OPS.OP_CHECKSIG]
                = multisig_chunks m (pk0 :: rest) n).
  { apply (f_equal (fun o => match o with Some l => l | None => [] end)) in Heq.
    rewrite <- Hpks, <- Heq. symmetry.
    exact (f_equal (fun o => match o with Some l => l | None => [] end) Hd). }
  apply (f_equal (fun l => last l (Op 0))) in Hcs.
  rewrite last_multisig_chunks in Hcs. discriminate.
Qed.

Lemma redeem_script_witness :
  exists pk0 rest rs,
    getPublicKeys (this example_state) = pk0 :: rest
    /\ getRedeemScript (this example_state) = Ok rs
    /\ decompile rs = Some [Op OPS.OP_DUP; Op OPS.OP_HASH160;
                            Data (@hash160 example_provider pk0);
                            Op OPS.OP_EQUALVERIFY; Op OPS.OP_CHECKSIG]
    /\ decompile rs <> Some (multisig_chunks 2 (getPublicKeys (this example_state)) 3).
Proof.
  apply (redeem_script_is_single_key_p2pkh example_provider_ok
           2 3 example_config example_wallet example_state);
    vm_compute; reflexivity.
Defined.

(** ** Order of the public keys *)

Lemma slots_nth (net : Network) {P : Provider} (k : nat) (i : Z)
    (kps : list KeyPairInfo) :
  slots net k i kps ->
  forall j kp, nth_error kps j = Some kp ->
    slot_keyPair net (k + j) (i + Z.of_nat j) = Ok kp.
Proof.
  induction 1 as [|k i kp0 kps Hkp Hs IH]; intros j kp Hj.
  - destruct j; discriminate.
  - destruct j as [|j]; cbn in Hj.
    + inversion Hj; subst. now rewrite Nat.add_0_r, Z.add_0_r.
    + apply IH in Hj. rewrite <- Hj. f_equal; lia.
Qed.

(** C7: the public keys returned by the wallet are expected to be in
    byte-lexicographic order whatever the generation order.  The wallet
    never sorts: [getPublicKeys] returns one key per slot, and the key at
    position j is the key of the record generated j-th (path index j, j-th
    draw of the random source). *)
Theorem public_keys_keep_generation_order {P : Provider}
    (m n : Z) (cfg : WalletConfig) (w : MultisigWallet) (s' : State) :
  constructor m n cfg = Ok w ->
  generateWallet (initial w) = (s', Ok tt) ->
  List.length (getPublicKeys (this s')) = Z.to_nat n
  /\ forall j pk, nth_error (getPublicKeys (this s')) j = Some pk ->
       exists kp, slot_keyPair networks.testnet j (Z.of_nat j) = Ok kp
                  /\ publicKey kp = pk.
Proof.
  intros Hc Hg.
  apply constructor_ok in Hc as (_ & Hn & Hnet & Hk & _).
  apply generateWallet_ok in Hg
    as (kps & pk0 & rest & a1 & a2 & Hlen & Hslots & _ & Hthis & _).
  cbn in Hlen, Hslots, Hthis. rewrite Hk in Hthis. cbn in Hthis.
  rewrite Hnet in Hslots. rewrite Hn in Hlen.
  unfold getPublicKeys. rewrite Hthis. cbn [keyPairs set_addresses set_redeemScript set_keyPairs].
  split; [now rewrite length_map|].
  intros j pk Hj. rewrite nth_error_map in Hj.
  destruct (nth_error kps j) as [kp|] eqn:Hkp; [|discriminate].
  cbn in Hj. inversion Hj; subst pk.
  exists kp. split; [|reflexivity].
  apply (slots_nth _ _ _ _ Hslots) in Hkp. exact Hkp.
Qed.

Lemma public_keys_order_witness :
  (List.length (getPublicKeys (this example_state)) = Z.to_nat 3
   /\ forall j pk, nth_error (getPublicKeys (this example_state)) j = Some pk ->
        exists kp, @slot_keyPair example_provider networks.testnet j (Z.of_nat j) = Ok kp
                   /\ publicKey kp = pk)
  /\ sortedb (getPublicKeys (this example_state)) = false.
Proof.
  split.
  - apply (public_keys_keep_generation_order (P := example_provider)
             2 3 example_config example_wallet example_state);
      vm_compute; reflexivity.
  - vm_compute. reflexivity.
Defined.

(** ** What a successful signature looks like *)

Lemma signTransaction_ok {P : Provider} (txHex : string) (i : Z)
    (kp : KeyPairInfo) (s s' : State) (hex : string) :
  signTransaction txHex i kp s = (s', Ok hex) ->
  exists tx digest priv tx',
    Transaction_fromHex txHex = Some tx
    /\ hashForSignature tx i (redeemScript (this s)) SIGHASH.NONE = Ok digest
    /\ privateKey kp = Some priv
    /\ setInputScript tx i
         (compile [Data (ecc_sign priv digest); Data (publicKey kp)]) = Ok tx'
    /\ hex = Transaction_toHex tx'
    /\ s' = logged s [CallFromHex; CallHashForSignature i SIGHASH.NONE;
                      CallFromPrivateKey; CallSign; CallSetInputScript i;
                      CallToHex].
Proof.
  rewrite signTransaction_run.
  destruct (Transaction_fromHex txHex) as [tx|]; [|discriminate]. cbv zeta.
  destruct (hashForSignature _ _ _ _) as [d|] eqn:Hd; [|discriminate].
  destruct (privateKey kp) as [priv|]; [|discriminate].
  destruct (ecc_isPrivate priv); [|discriminate].
  destruct (setInputScript _ _ _) as [tx'|] eqn:Hset; [|discriminate].
  intros H; inversion H; subst.
  exists tx, d, priv, tx'. repeat split; auto.
Qed.

Lemma hashForSignature_none_ignores_outputs {P : Provider}
    (tx : Transaction) (o : list TxOutput) (i : Z) (sc : option Buffer) :
  hashForSignature (with_outs o tx) i sc SIGHASH.NONE
  = hashForSignature tx i sc SIGHASH.NONE.
Proof. reflexivity. Qed.

Lemma map_at_nth {A} (f : A -> A) (l : list A) :
  forall k x, nth_error l k = Some x -> nth_error (map_at k f l) k = Some (f x).
Proof.
  induction l as [|y l IH]; intros [|k] x H; cbn in *; try discriminate.
  - now inversion H.
  - now apply IH.
Qed.

Lemma setInputScript_ok (tx tx' : Transaction) (i : Z) (sc : Buffer) :
  setInputScript tx i sc = Ok tx' ->
  0 <= i < Z.of_nat (List.length (ins tx))
  /\ outs tx' = outs tx
  /\ exists inp, nth_error (ins tx') (Z.to_nat i) = Some inp
                 /\ in_script inp = sc.
Proof.
  unfold setInputScript.
  destruct (i <? 0) eqn:H0; [discriminate|].
  destruct (Z.of_nat (List.length (ins tx)) <=? i) eqn:H1; [discriminate|].
  apply Z.ltb_ge in H0. apply Z.leb_gt in H1.
  cbn [orb]. intros H; inversion H; subst; clear H. cbn [ins outs].
  split; [lia|]. split; [reflexivity|].
  destruct (nth_error (ins tx) (Z.to_nat i)) as [inp0|] eqn:Hn.
  - exists (set_script sc inp0). split; [|reflexivity].
    now apply map_at_nth.
  - apply nth_error_None in Hn. lia.
Qed.

(** C2: the digest is expected to be computed under SIGHASH_ALL and the
    signature element to be the DER encoding followed by the byte 0x01.
    The wallet asks for the SIGHASH_NONE digest, which is the same whatever
    the outputs of the transaction are, and pushes the raw 64-byte output of
    the signing primitive: the unlocking script opens with a 64-byte push of
    exactly that, with no hash-type byte after it. *)
Theorem signature_is_raw_and_sighash_none {P : Provider} (HP : ProviderOK P)
    (txHex : string) (i : Z) (kp : KeyPairInfo) (s s' : State) (hex : string) :
  signTransaction txHex i kp s = (s', Ok hex) ->
  exists tx digest priv tx' inp,
    Transaction_fromHex txHex = Some tx
    /\ privateKey kp = Some priv
    /\ hashForSignature tx i (redeemScript (this s)) SIGHASH.NONE = Ok digest
    /\ (forall o, hashForSignature (with_outs o tx) i (redeemScript (this s))
                    SIGHASH.NONE = Ok digest)
    /\ trace s' = trace s ++ [CallFromHex; CallHashForSignature i SIGHASH.NONE;
                               CallFromPrivateKey; CallSign;
                               CallSetInputScript i; CallToHex]
    /\ hex = Transaction_toHex tx'
    /\ nth_error (ins tx') (Z.to_nat i) = Some inp
    /\ in_script inp
       = [64] ++ ecc_sign priv digest ++ compile [Data (publicKey kp)].
Proof.
  intros H.
  apply signTransaction_ok in H
    as (tx & digest & priv & tx' & Hhex & Hd & Hpriv & Hset & -> & ->).
  apply setInputScript_ok in Hset as (_ & _ & inp & Hinp & Hsc).
  exists tx, digest, priv, tx', inp.
  split; [exact Hhex|]. split; [exact Hpriv|]. split; [exact Hd|].
  split; [intros o; now rewrite hashForSignature_none_ignores_outputs|].
  split; [reflexivity|].
  split; [reflexivity|]. split; [exact Hinp|].
  rewrite Hsc. unfold compile. cbn [flat_map compile_chunk].
  rewrite (asMinimalOP_long (ecc_sign priv digest))
    by (rewrite (ecc_sign_length P HP); lia).
  unfold pushdata_encode, byteLength. rewrite (ecc_sign_length P HP).
  change (Z.of_nat 64 <? OPS.OP_PUSHDATA1) with true. cbv iota.
  change (Z.of_nat 64) with 64.
  now rewrite <- app_assoc.
Qed.

Lemma signature_witness :
  exists tx digest priv tx' inp,
    @Transaction_fromHex example_provider EmptyString = Some tx
    /\ privateKey example_keyPair = Some priv
    /\ @hashForSignature example_provider tx 0
         (redeemScript (this example_state)) SIGHASH.NONE = Ok digest
    /\ (forall o, @hashForSignature example_provider (with_outs o tx) 0
                    (redeemScript (this example_state)) SIGHASH.NONE = Ok digest)
    /\ trace (fst example_signed)
       = trace example_state
         ++ [CallFromHex; CallHashForSignature 0 SIGHASH.NONE;
             CallFromPrivateKey; CallSign; CallSetInputScript 0; CallToHex]
    /\ EmptyString = @Transaction_toHex example_provider tx'
    /\ nth_error (ins tx') (Z.to_nat 0) = Some inp
    /\ in_script inp
       = [64] ++ @ecc_sign example_provider priv digest
         ++ compile [Data (publicKey example_keyPair)].
Proof.
  apply (signature_is_raw_and_sighash_none example_provider_ok
           EmptyString 0 example_keyPair example_state (fst example_signed)
           EmptyString).
  vm_compute. reflexivity.
Defined.

(** C4: the unlocking script of a signed input is expected to be OP_0, the
    DER signature(s), and last the redeem script.  The wallet writes two
    pushes only: the raw 64-byte signature and the signer's public key.  The
    first element is not OP_0 and the last one is the public key, which is
    not the cached redeem script. *)
Theorem unlocking_script_is_signature_and_key {P : Provider} (HP : ProviderOK P)
    (m n : Z) (cfg : WalletConfig) (w : MultisigWallet) (s s' : State)
    (txHex : string) (i : Z) (kp : KeyPairInfo) (hex : string) :
  constructor m n cfg = Ok w ->
  generateWallet (initial w) = (s, Ok tt) ->
  List.length (publicKey kp) = 33%nat ->
  signTransaction txHex i kp s = (s', Ok hex) ->
  exists tx' inp signature rs,
    hex = Transaction_toHex tx'
    /\ nth_error (ins tx') (Z.to_nat i) = Some inp
    /\ decompile (in_script inp) = Some [Data signature; Data (publicKey kp)]
    /\ List.length signature = 64%nat
    /\ getRedeemScript (this s) = Ok rs
    /\ hd_error [Data signature; Data (publicKey kp)] <> Some (Op OPS.OP_0)
    /\ last [Data signature; Data (publicKey kp)] (Op 0) <> Data rs.
Proof.
  intros Hc Hg Hpk H.
  apply signTransaction_ok in H
    as (tx & digest & priv & tx' & _ & _ & _ & Hset & -> & _).
  apply setInputScript_ok in Hset as (_ & _ & inp & Hinp & Hsc).
  apply generateWallet_ok in Hg
    as (kps & pk0 & rest & a1 & a2 & _ & _ & _ & Hthis & _).
  cbv zeta in Hthis.
  exists tx', inp, (ecc_sign priv digest).
  eexists. split; [reflexivity|]. split; [exact Hinp|].
  split.
  { rewrite Hsc. apply decompile_compile.
    repeat apply Forall_cons; try apply Forall_nil; cbn [plain_chunk].
    - rewrite (ecc_sign_length P HP). lia.
    - rewrite Hpk. lia. }
  split; [apply (ecc_sign_length P HP)|].
  split; [unfold getRedeemScript; rewrite Hthis; reflexivity|].
  split; [discriminate|].
  cbn [last]. intros Heq. inversion Heq as [Hlen].
  apply (f_equal (@List.length Z)) in Hlen. rewrite Hpk in Hlen.
  unfold compile in Hlen. cbn [flat_map compile_chunk] in Hlen.
  rewrite (asMinimalOP_long (hash160 pk0)) in Hlen
    by (rewrite (hash160_length P HP); lia).
  unfold pushdata_encode, byteLength in Hlen.
  rewrite (hash160_length P HP) in Hlen.
  change (Z.of_nat 20 <? OPS.OP_PUSHDATA1) with true in Hlen. cbv iota in Hlen.
  cbn [List.length app] in Hlen. rewrite length_app, (hash160_length P HP) in Hlen.
  cbn [List.length] in Hlen. lia.
Qed.

Lemma unlocking_script_witness :
  exists tx' inp signature rs,
    EmptyString = @Transaction_toHex example_provider tx'
    /\ nth_error (ins tx') (Z.to_nat 0) = Some inp
    /\ decompile (in_script inp)
       = Some [Data signature; Data (publicKey example_keyPair)]
    /\ List.length signature = 64%nat
    /\ getRedeemScript (this example_state) = Ok rs
    /\ hd_error [Data signature; Data (publicKey example_keyPair)]
       <> Some (Op OPS.OP_0)
    /\ last [Data signature; Data (publicKey example_keyPair)] (Op 0) <> Data rs.
Proof.
  apply (unlocking_script_is_signature_and_key example_provider_ok
           2 3 example_config example_wallet example_state (fst example_signed)
           EmptyString 0 example_keyPair EmptyString);
    vm_compute; reflexivity.
Defined.

(** ** Order of the checks in [signTransaction] *)

Lemma hashForSignature_in_range {P : Provider} (tx : Transaction) (i : Z)
    (rs : Buffer) (cs : list chunk) (hashType : Z) :
  decompile rs = Some cs ->
  0 <= i < Z.of_nat (List.length (ins tx)) ->
  Z.land hashType 31 = SIGHASH.NONE ->
  exists digest, hashForSignature tx i (Some rs) hashType = Ok digest.
Proof.
  intros Hd Hi Hm. unfold hashForSignature.
  destruct (i <? 0) eqn:H0; [apply Z.ltb_lt in H0; lia|].
  destruct (Z.of_nat (List.length (ins tx)) <=? i) eqn:H1;
    [apply Z.leb_le in H1; lia|].
  rewrite Hd, Hm. cbn. eauto.
Qed.

Lemma hashForSignature_out_of_range {P : Provider} (tx : Transaction) (j : Z)
    (rs : Buffer) (hashType : Z) :
  Z.of_nat (List.length (ins tx)) <= j ->
  j <= 4294967295 ->
  hashForSignature tx j (Some rs) hashType = Ok ONE.
Proof.
  intros Hj Hu. unfold hashForSignature.
  destruct (j <? 0) eqn:H0; [apply Z.ltb_lt in H0; lia|].
  destruct (Z.of_nat (List.length (ins tx)) <=? j) eqn:H1;
    [|apply Z.leb_gt in H1; lia].
  destruct (4294967295 <? j) eqn:H2; [apply Z.ltb_lt in H2; lia | reflexivity].
Qed.

Lemma hashForSignature_beyond_uint32 {P : Provider} (tx : Transaction) (j : Z)
    (rs : Buffer) (hashType : Z) :
  Z.of_nat (List.length (ins tx)) <= j ->
  4294967295 < j ->
  hashForSignature tx j (Some rs) hashType = Throw (TypeError "Expected UInt32").
Proof.
  intros Hj Hu. unfold hashForSignature.
  destruct (j <? 0) eqn:H0; [reflexivity|].
  destruct (Z.of_nat (List.length (ins tx)) <=? j) eqn:H1;
    [|apply Z.leb_gt in H1; lia].
  destruct (4294967295 <? j) eqn:H2; [reflexivity | apply Z.ltb_ge in H2; lia].
Qed.

(** C8: a record without private key is expected to be refused, and an
    input index out of range to be refused as an invalid index, both before
    any hashing or other cryptographic work.  The wallet tests the private
    key only after it has computed the signature hash, and never tests the
    index: with an index past the last input (and within the unsigned
    32-bit range that [hashForSignature] admits) it hashes and signs, and
    it is the library's [setInputScript] that fails, with a TypeError. *)
Theorem signing_checks_come_after_hashing {P : Provider}
    (s : State) (txHex : string) (tx : Transaction) (rs : Buffer)
    (cs : list chunk) (kp : KeyPairInfo) (priv : Buffer) (i j : Z) :
  Transaction_fromHex txHex = Some tx ->
  redeemScript (this s) = Some rs ->
  decompile rs = Some cs ->
  privateKey kp = Some priv ->
  ecc_isPrivate priv = true ->
  0 <= i < Z.of_nat (List.length (ins tx)) ->
  Z.of_nat (List.length (ins tx)) <= j ->
  j <= 4294967295 ->
  signTransaction txHex i (without_private kp) s
  = (logged s [CallFromHex; CallHashForSignature i SIGHASH.NONE],
     Throw (Error "Private key not found"))
  /\ signTransaction txHex j kp s
     = (logged s [CallFromHex; CallHashForSignature j SIGHASH.NONE;
                  CallFromPrivateKey; CallSign; CallSetInputScript j],
        Throw (TypeError "Cannot set properties of undefined (setting 'script')")).
Proof.
  intros Hhex Hrs Hd Hpriv Hvalid Hi Hj Hu.
  rewrite !signTransaction_run, Hhex, Hrs. cbv zeta. split.
  - destruct (hashForSignature_in_range tx i rs cs SIGHASH.NONE Hd Hi eq_refl)
      as (digest & ->).
    reflexivity.
  - rewrite hashForSignature_out_of_range by assumption.
    rewrite Hpriv, Hvalid. unfold setInputScript.
    destruct (Z.of_nat (List.length (ins tx)) <=? j) eqn:H1;
      [|apply Z.leb_gt in H1; lia].
    rewrite orb_true_r. reflexivity.
Qed.

Lemma signing_checks_witness :
  @signTransaction example_provider EmptyString 0
     (without_private example_keyPair) example_state
  = (logged example_state [CallFromHex; CallHashForSignature 0 SIGHASH.NONE],
     Throw (Error "Private key not found"))
  /\ @signTransaction example_provider EmptyString 999 example_keyPair example_state
     = (logged example_state
          [CallFromHex; CallHashForSignature 999 SIGHASH.NONE;
           CallFromPrivateKey; CallSign; CallSetInputScript 999],
        Throw (TypeError "Cannot set properties of undefined (setting 'script')")).
Proof.
  apply (signing_checks_come_after_hashing (P := example_provider)
           example_state EmptyString example_tx
           [118; 169; 20; 9; 9; 9; 9; 9; 9; 9; 9; 9; 9; 9; 9; 9; 9; 9; 9; 9; 9;
            9; 9; 136; 172]
           [Op OPS.OP_DUP; Op OPS.OP_HASH160; Data (repeat 9 20);
            Op OPS.OP_EQUALVERIFY; Op OPS.OP_CHECKSIG]
           example_keyPair (repeat 1 32) 0 999);
    try (vm_compute; reflexivity); cbn; lia.
Defined.

(** ** Mnemonics *)

Lemma length_bits_of (width : nat) (v : Z) : List.length (bits_of width v) = width.
Proof. induction width as [|w IH]; cbn; [reflexivity | now rewrite IH]. Qed.

Lemma length_bytesToBinary (b : Buffer) :
  List.length (bytesToBinary b) = (8 * List.length b)%nat.
Proof.
  unfold bytesToBinary. induction b as [|x b IH]; [reflexivity|].
  cbn [flat_map]. rewrite length_app, length_bits_of, IH. cbn [List.length]. lia.
Qed.

Lemma length_chunks_of (size : nat) (k : nat) :
  forall (bits : list bool) (fuel : nat),
  List.length bits = (k * S size)%nat ->
  (List.length bits <= fuel)%nat ->
  List.length (chunks_of fuel (S size) bits) = k.
Proof.
  induction k as [|k IH]; intros bits fuel Hlen Hfuel.
  - destruct bits; [|discriminate]. destruct fuel; reflexivity.
  - destruct bits as [|b bits]; [discriminate|].
    destruct fuel as [|fuel]; [cbn in Hfuel; lia|].
    cbn [chunks_of List.length]. f_equal. apply IH.
    + rewrite length_skipn, Hlen. cbn. lia.
    + rewrite length_skipn. cbn [List.length] in *. lia.
Qed.

Lemma split_word (w : string) :
  has_char " " w = false -> split " " w = [w].
Proof.
  induction w as [|a w IH]; cbn; [reflexivity|].
  intros H. apply orb_false_iff in H as (Ha & Hw).
  rewrite Ha, (IH Hw). reflexivity.
Qed.

Lemma split_word_space (w rest : string) :
  has_char " " w = false ->
  split " " (append w (String " " rest)) = w :: split " " rest.
Proof.
  induction w as [|a w IH]; cbn; [reflexivity|].
  intros H. apply orb_false_iff in H as (Ha & Hw).
  rewrite Ha, (IH Hw). reflexivity.
Qed.

Lemma split_join (ws : list string) :
  ws <> [] ->
  Forall (fun w => has_char " " w = false) ws ->
  split " " (join " " ws) = ws.
Proof.
  induction ws as [|w ws IH]; intros Hne Hall; [congruence|].
  inversion Hall as [|? ? Hw Hws]; subst.
  destruct ws as [|w' ws].
  - cbn. now apply split_word.
  - cbn [join]. change (append " " ?x) with (String " " x).
    rewrite split_word_space by assumption.
    f_equal. apply IH; [discriminate | assumption].
Qed.

Lemma entropyToMnemonic_128 {P : Provider} (HP : ProviderOK P) (entropy : Buffer) :
  List.length entropy = 16%nat ->
  exists ws, entropyToMnemonic entropy = Ok (join " " ws)
             /\ List.length ws = 12%nat
             /\ Forall (fun w => has_char " " w = false) ws.
Proof.
  intros Hlen. unfold entropyToMnemonic, byteLength. rewrite Hlen.
  cbn [Z.of_nat Pos.of_succ_nat Pos.succ Z.ltb Z.compare Pos.compare].
  change (Z.of_nat 16 <? 16) with false. change (32 <? Z.of_nat 16) with false.
  change (negb (Z.of_nat 16 mod 4 =? 0)) with false. cbv iota.
  eexists. split; [reflexivity|]. split.
  - rewrite length_map. apply length_chunks_of; [|lia].
    rewrite length_app, length_bytesToBinary, Hlen.
    unfold deriveChecksumBits. rewrite Hlen.
    rewrite length_firstn, length_bytesToBinary, (sha256_length P HP).
    reflexivity.
  - apply Forall_forall. intros w Hw. apply in_map_iff in Hw as (c & <- & _).
    apply (wordlist_no_space P HP).
Qed.

(** C6: every mnemonic is expected to come from 256 bits of entropy and to
    have exactly 24 words.  [generateKeyPair] asks for a 128-bit mnemonic:
    16 bytes are drawn and the phrase has exactly 12 words. *)
Theorem mnemonic_has_twelve_words {P : Provider} (HP : ProviderOK P)
    (index : Z) (s s' : State) (kp : KeyPairInfo) :
  generateKeyPair index s = (s', Ok kp) ->
  List.length (randomBytes (draws s) 16) = 16%nat
  /\ entropyToMnemonic (randomBytes (draws s) 16) = Ok (mnemonic kp)
  /\ List.length (split " " (mnemonic kp)) = 12%nat.
Proof.
  intros H. apply generateKeyPair_ok in H as (_ & _ & H).
  assert (Hlen : List.length (randomBytes (draws s) 16) = 16%nat)
    by (rewrite (randomBytes_length P HP); [reflexivity | lia]).
  destruct (entropyToMnemonic_128 HP _ Hlen) as (ws & Hws & Hn & Hall).
  unfold slot_keyPair in H. rewrite Hws in H.
  destruct (bip32_fromSeed _ _); [|discriminate].
  destruct (bip32_derivePath _ _); [|discriminate].
  destruct (bip32_privateKey _); [|discriminate].
  inversion H; subst kp; clear H. cbn [mnemonic].
  split; [exact Hlen|]. split; [exact Hws|].
  rewrite split_join; [exact Hn | | exact Hall].
  destruct ws; [discriminate | discriminate].
Qed.

Lemma mnemonic_witness :
  List.length (@randomBytes example_provider (draws (initial example_wallet)) 16)
  = 16%nat
  /\ @entropyToMnemonic example_provider
       (@randomBytes example_provider (draws (initial example_wallet)) 16)
     = Ok "zoo zoo zoo zoo zoo zoo zoo zoo zoo zoo zoo zoo"%string
  /\ List.length (split " " "zoo zoo zoo zoo zoo zoo zoo zoo zoo zoo zoo zoo")
     = 12%nat.
Proof.
  apply (mnemonic_has_twelve_words example_provider_ok 0 (initial example_wallet)
           (fst (@generateKeyPair example_provider 0 (initial example_wallet)))
           {| mnemonic := "zoo zoo zoo zoo zoo zoo zoo zoo zoo zoo zoo zoo";
              path := "0";
              publicKey := 2 :: 207 :: repeat 0 31;
              privateKey := Some (repeat 1 32) |}).
  vm_compute. reflexivity.
Defined.

(** ** Address prefixes *)

Lemma fold_be_value (b : Buffer) :
  forall acc,
  fold_left (fun a x => 256 * a + x) b acc
  = acc * 256 ^ Z.of_nat (List.length b) + be_value b.
Proof.
  unfold be_value. induction b as [|x b IH]; intros acc.
  - cbn. lia.
  - cbn [fold_left List.length]. rewrite IH, (IH (256 * 0 + x)).
    rewrite Nat2Z.inj_succ, Z.pow_succ_r by lia. ring.
Qed.

Lemma be_value_cons (x : Z) (b : Buffer) :
  be_value (x :: b) = x * 256 ^ Z.of_nat (List.length b) + be_value b.
Proof.
  unfold be_value at 1. cbn [fold_left]. rewrite fold_be_value. ring.
Qed.

Lemma be_value_bound (b : Buffer) :
  wf_buffer b -> 0 <= be_value b < 256 ^ Z.of_nat (List.length b).
Proof.
  induction 1 as [|x b Hx Hb IH].
  - cbn. lia.
  - rewrite be_value_cons. cbn [List.length].
    rewrite Nat2Z.inj_succ, Z.pow_succ_r by lia.
    unfold is_byte in Hx. nia.
Qed.

Lemma base58_digits_zero (fuel : nat) (acc : list Z) :
  base58_digits fuel 0 acc = acc.
Proof. destruct fuel; reflexivity. Qed.

Lemma base58_digits_head (k : nat) :
  forall (n : Z) (acc : list Z) (fuel : nat),
  58 ^ Z.of_nat k <= n < 58 ^ Z.of_nat (S k) ->
  (k < fuel)%nat ->
  exists tl, base58_digits fuel n acc = (n / 58 ^ Z.of_nat k) :: tl.
Proof.
  induction k as [|k IH]; intros n acc fuel Hn Hfuel;
    (destruct fuel as [|fuel]; [lia|]); cbn [base58_digits].
  - change (58 ^ Z.of_nat 0) with 1 in *. change (58 ^ Z.of_nat 1) with 58 in Hn.
    destruct (n <=? 0) eqn:H0; [apply Z.leb_le in H0; lia|].
    rewrite Z.div_small, base58_digits_zero by lia.
    rewrite Z.mod_small, Z.div_1_r by lia. eauto.
  - rewrite !Nat2Z.inj_succ in Hn.
    rewrite !Z.pow_succ_r in Hn by lia.
    assert (Hpos : 0 < 58 ^ Z.of_nat k) by (apply Z.pow_pos_nonneg; lia).
    destruct (n <=? 0) eqn:H0; [apply Z.leb_le in H0; lia|].
    destruct (IH (n / 58) (n mod 58 :: acc) fuel) as (tl & Htl).
    + rewrite Nat2Z.inj_succ, Z.pow_succ_r by lia. split.
      * apply Z.div_le_lower_bound; lia.
      * apply Z.div_lt_upper_bound; lia.
    + lia.
    + rewrite Htl. exists tl. f_equal.
      rewrite Nat2Z.inj_succ, Z.pow_succ_r by lia.
      rewrite Z.div_div by lia. reflexivity.
Qed.

Lemma base58_encode_first (source : Buffer) (k : nat) (d : Z) :
  leading_zeroes source = 0%nat ->
  1 <= d < 58 ->
  d * 58 ^ Z.of_nat k <= be_value source < (d + 1) * 58 ^ Z.of_nat k ->
  (k < 2 * List.length source)%nat ->
  exists r, base58_encode source = String (charAt BASE58 d) r.
Proof.
  intros Hz Hd Hv Hk. unfold base58_encode. rewrite Hz. cbn [repeat app].
  assert (Hpos : 0 < 58 ^ Z.of_nat k) by (apply Z.pow_pos_nonneg; lia).
  destruct (base58_digits_head k (be_value source) [] (2 * List.length source))
    as (tl & ->); [|exact Hk|].
  - rewrite Nat2Z.inj_succ, Z.pow_succ_r by lia. nia.
  - replace (be_value source / 58 ^ Z.of_nat k) with d.
    + cbn [map string_of_chars]. eauto.
    + apply Z.div_unique with (r := be_value source - d * 58 ^ Z.of_nat k); lia.
Qed.

Lemma wf_firstn (n : nat) (b : Buffer) : wf_buffer b -> wf_buffer (firstn n b).
Proof.
  unfold wf_buffer. intros H. rewrite <- (firstn_skipn n b) in H.
  now apply Forall_app in H.
Qed.

(** A Base58Check address of a 20-byte hash under version byte 196 starts
    with '2'; under version byte 5 it starts with '3'. *)
Lemma toBase58Check_first {P : Provider} (HP : ProviderOK P)
    (hash : Buffer) (version : Z) (k : nat) (d : Z) :
  List.length hash = 20%nat -> wf_buffer hash ->
  1 <= version < 256 -> 1 <= d < 58 -> (k < 50)%nat ->
  d * 58 ^ Z.of_nat k <= version * 256 ^ 24 ->
  (version + 1) * 256 ^ 24 <= (d + 1) * 58 ^ Z.of_nat k ->
  exists r, toBase58Check hash version = String (charAt BASE58 d) r.
Proof.
  intros Hlen Hwf Hver Hd Hk Hlo Hhi.
  unfold toBase58Check, bs58check_encode.
  set (chk := firstn 4 (sha256 (sha256 (version :: hash)))).
  assert (Hchk : List.length chk = 4%nat)
    by (unfold chk; rewrite length_firstn, (sha256_length P HP); reflexivity).
  assert (Hrest : wf_buffer (hash ++ chk)).
  { apply Forall_app. split; [exact Hwf|].
    apply wf_firstn, (sha256_bytes P HP). }
  apply be_value_bound in Hrest.
  rewrite length_app, Hlen, Hchk in Hrest.
  change (Z.of_nat (20 + 4)) with 24 in Hrest.
  apply (base58_encode_first _ k d).
  - cbn [app leading_zeroes].
    destruct (version =? 0) eqn:H0; [apply Z.eqb_eq in H0; lia | reflexivity].
  - exact Hd.
  - cbn [app]. rewrite be_value_cons, length_app, Hlen, Hchk.
    change (Z.of_nat (20 + 4)) with 24. lia.
  - cbn [app List.length]. rewrite length_app, Hlen, Hchk. lia.
Qed.

Lemma toBase58Check_testnet_script {P : Provider} (HP : ProviderOK P) (b : Buffer) :
  exists r, toBase58Check (hash160 b) (scriptHash networks.testnet) = String "2" r.
Proof.
  apply (toBase58Check_first HP (hash160 b) 196 34 1);
    [apply (hash160_length P HP) | apply (hash160_bytes P HP)
    | lia | lia | lia | vm_compute; discriminate | vm_compute; discriminate].
Qed.

Lemma toBase58Check_bitcoin_script {P : Provider} (HP : ProviderOK P) (b : Buffer) :
  exists r, toBase58Check (hash160 b) (scriptHash networks.bitcoin) = String "3" r.
Proof.
  apply (toBase58Check_first HP (hash160 b) 5 33 2);
    [apply (hash160_length P HP) | apply (hash160_bytes P HP)
    | lia | lia | lia | vm_compute; discriminate | vm_compute; discriminate].
Qed.

Lemma bech32_encode_prefix (prefix : string) (words : list Z) (a : string) :
  bech32_encode prefix words = Ok a ->
  exists r, a = append prefix (String "1" r).
Proof.
  unfold bech32_encode.
  destruct (90 <? _); [discriminate|].
  destruct (existsb _ _); [discriminate|].
  intros H.
  match type of H with Ok ?x = Ok _ => assert (Hx : x = a) by congruence end.
  rewrite <- Hx. eexists. reflexivity.
Qed.

(** C9: with production-network parameters in the configuration the
    addresses are expected to carry the production prefixes "3" and "bc1".
    The constructor never reads [config.network]: the wallet is always on
    the test network, and whatever the configuration says, the p2sh address
    starts with "2" and the p2wsh address with "tb1". *)
Theorem addresses_always_carry_testnet_prefixes {P : Provider} (HP : ProviderOK P)
    (m n : Z) (cfg : WalletConfig) (w : MultisigWallet) (s' : State) :
  constructor m n cfg = Ok w ->
  generateWallet (initial w) = (s', Ok tt) ->
  network (this s') = networks.testnet
  /\ exists a r1 r2,
       getAddresses (this s') = Some a
       /\ p2sh a = String "2" r1
       /\ p2wsh a = String "t" (String "b" (String "1" r2)).
Proof.
  intros Hc Hg.
  apply constructor_ok in Hc as (_ & _ & Hnet & _).
  apply generateWallet_ok in Hg
    as (kps & pk0 & rest & a1 & a2 & _ & _ & _ & Hthis & Ha1 & Ha2).
  cbv zeta in Hthis, Ha1, Ha2. cbn [this initial] in Hthis, Ha1, Ha2.
  rewrite Hnet in Ha1, Ha2.
  split; [rewrite Hthis; exact Hnet|].
  destruct (toBase58Check_testnet_script HP
              (compile [Op OPS.OP_DUP; Op OPS.OP_HASH160; Data (hash160 pk0);
                        Op OPS.OP_EQUALVERIFY; Op OPS.OP_CHECKSIG]))
    as (r1 & Hr1).
  unfold toBech32 in Ha2.
  apply bech32_encode_prefix in Ha2 as (r2 & Hr2).
  exists {| p2sh := a1; p2wsh := a2 |}, r1, r2.
  unfold getAddresses. rewrite Hthis. cbn [addresses set_addresses p2sh p2wsh].
  split; [reflexivity|]. split; [now rewrite Ha1 | exact Hr2].
Qed.

Lemma addresses_prefix_witness :
  cfg_network example_config = Some networks.bitcoin
  /\ network (this example_state) = networks.testnet
  /\ exists a r1 r2,
       getAddresses (this example_state) = Some a
       /\ p2sh a = String "2" r1
       /\ p2wsh a = String "t" (String "b" (String "1" r2)).
Proof.
  split; [reflexivity|].
  apply (addresses_always_carry_testnet_prefixes example_provider_ok
           2 3 example_config example_wallet example_state);
    vm_compute; reflexivity.
Defined.

(** * Further properties of the wallet *)

(** ** What [generateWallet] leaves behind *)

Lemma slot_keyPair_private {P : Provider} (net : Network) (k : nat) (i : Z)
    (kp : KeyPairInfo) :
  slot_keyPair net k i = Ok kp -> privateKey kp <> None.
Proof.
  unfold slot_keyPair.
  destruct (entropyToMnemonic _); [|discriminate].
  destruct (bip32_fromSeed _ _); [|discriminate].
  destruct (bip32_derivePath _ _); [|discriminate].
  destruct (bip32_privateKey _); [|discriminate].
  intros H; inversion H; discriminate.
Qed.

Lemma slots_private {P : Provider} (net : Network) (k : nat) (i : Z)
    (kps : list KeyPairInfo) :
  slots net k i kps -> Forall (fun kp => privateKey kp <> None) kps.
Proof.
  induction 1 as [|k i kp kps Hkp Hs IH]; constructor; auto.
  eapply slot_keyPair_private; eauto.
Qed.

Lemma generateWallet_loop_draws {P : Provider} (todo : nat) :
  forall (i : Z) (s s' : State),
  generateWallet_loop todo i s = (s', Ok tt) ->
  draws s' = (draws s + todo)%nat.
Proof.
  induction todo as [|todo IH]; intros i s s' H.
  - cbn in H. inversion H; subst. lia.
  - cbn [generateWallet_loop] in H.
    apply bind_ok in H as (s1 & kp & Hkp & H).
    apply generateKeyPair_ok in Hkp as (_ & Hd & _).
    unfold bind, get_this, set_this in H. cbn in H.
    apply IH in H. cbn in H. lia.
Qed.

Lemma createMultisigAddresses_draws {P : Provider} (s : State) :
  draws (fst (createMultisigAddresses s)) = draws s.
Proof.
  unfold createMultisigAddresses, bind, get_this. rewrite call_run.
  destruct (p2pkh _ _) as [pay|]; [|reflexivity].
  destruct (pay_output pay) as [rs|]; [|reflexivity].
  unfold set_this. cbn [this draws trace logged]. rewrite call_run.
  destruct (payments_p2sh _ _) as [p1|]; [|reflexivity]. rewrite call_run.
  destruct (payments_p2wsh _ _) as [p2|]; [|reflexivity].
  destruct (pay_address p1) as [[|c1 a1]|]; try reflexivity;
    destruct (pay_address p2) as [[|c2 a2]|]; reflexivity.
Qed.

Lemma generateWallet_draws {P : Provider} (s s' : State) :
  generateWallet s = (s', Ok tt) ->
  draws s' = (draws s + Z.to_nat (totalSigners (this s)))%nat.
Proof.
  intros Hg. unfold generateWallet in Hg.
  apply bind_ok in Hg as (s1 & w1 & Hw & Hg).
  unfold get_this in Hw. inversion Hw; subst s1 w1; clear Hw.
  apply bind_ok in Hg as (s1 & [] & Hloop & Hg).
  apply generateWallet_loop_draws in Hloop.
  pose proof (createMultisigAddresses_draws s1) as Hc.
  rewrite Hg in Hc. cbn in Hc. congruence.
Qed.

(** X1: a successful [generateWallet] on a new wallet made exactly
    [totalSigners] records, one draw of entropy each; there is at least one,
    every record carries a private key, and the three list getters have
    that length. *)
Theorem generateWallet_makes_one_record_per_signer {P : Provider}
    (m n : Z) (cfg : WalletConfig) (w : MultisigWallet) (s' : State) :
  constructor m n cfg = Ok w ->
  generateWallet (initial w) = (s', Ok tt) ->
  1 <= n
  /\ List.length (keyPairs (this s')) = Z.to_nat n
  /\ List.length (getMnemonics (this s')) = Z.to_nat n
  /\ List.length (getDerivationPaths (this s')) = Z.to_nat n
  /\ List.length (getPublicKeys (this s')) = Z.to_nat n
  /\ draws s' = Z.to_nat n
  /\ Forall (fun kp => privateKey kp <> None) (keyPairs (this s')).
Proof.
  intros Hc Hg.
  apply constructor_ok in Hc as (_ & Hn & _ & Hk & _).
  assert (Hd : draws s' = Z.to_nat n).
  { unfold generateWallet in Hg.
    apply bind_ok in Hg as (s1 & w1 & Hw & Hg).
    unfold get_this in Hw. inversion Hw; subst s1 w1; clear Hw.
    apply bind_ok in Hg as (s1 & [] & Hloop & Hg).
    apply generateWallet_loop_draws in Hloop. cbn in Hloop.
    pose proof (createMultisigAddresses_draws s1) as Hc.
    rewrite Hg in Hc. cbn in Hc. rewrite Hc, Hloop, Hn. reflexivity. }
  apply generateWallet_ok in Hg
    as (kps & pk0 & rest & a1 & a2 & Hlen & Hslots & Hpks & Hthis & _).
  cbn in Hlen, Hslots, Hpks, Hthis. rewrite Hk in Hpks, Hthis.
  cbn in Hpks, Hthis. rewrite Hn in Hlen.
  unfold getMnemonics, getDerivationPaths, getPublicKeys. rewrite Hthis.
  cbn [keyPairs set_addresses set_redeemScript set_keyPairs].
  rewrite !length_map.
  assert (Hpos : 1 <= n).
  { destruct kps; [discriminate|]. cbn in Hlen. lia. }
  repeat split; try assumption. eapply slots_private; eauto.
Qed.

Lemma one_record_per_signer_witness :
  1 <= 3
  /\ List.length (keyPairs (this example_state)) = Z.to_nat 3
  /\ List.length (getMnemonics (this example_state)) = Z.to_nat 3
  /\ List.length (getDerivationPaths (this example_state)) = Z.to_nat 3
  /\ List.length (getPublicKeys (this example_state)) = Z.to_nat 3
  /\ draws example_state = Z.to_nat 3
  /\ Forall (fun kp => privateKey kp <> None) (keyPairs (this example_state)).
Proof.
  apply (generateWallet_makes_one_record_per_signer (P := example_provider)
           2 3 example_config example_wallet example_state);
    vm_compute; reflexivity.
Defined.

(** X2: a wallet constructed with no signers (the constructor accepts
    every n <= 0 with m <= n) cannot be generated: [generateWallet] makes no
    record, asks p2pkh for the script of a missing key and fails with the
    library's TypeError, leaving the object as constructed. *)
Theorem generateWallet_without_signers_fails {P : Provider}
    (m n : Z) (cfg : WalletConfig) (w : MultisigWallet) :
  constructor m n cfg = Ok w ->
  n <= 0 ->
  generateWallet (initial w)
  = (logged (initial w) [CallP2pkh], Throw (TypeError "Not enough data")).
Proof.
  intros Hc Hn.
  apply constructor_ok in Hc as (_ & Hn' & _ & Hk & _).
  unfold generateWallet, bind, get_this. cbn [this initial].
  rewrite Hn'. replace (Z.to_nat n) with 0%nat by lia.
  cbn [generateWallet_loop ret].
  unfold createMultisigAddresses, bind, get_this. cbn [this initial].
  rewrite Hk. reflexivity.
Qed.

Lemma without_signers_witness :
  @generateWallet example_provider (initial signerless_wallet)
  = (logged (initial signerless_wallet) [CallP2pkh],
     Throw (TypeError "Not enough data")).
Proof.
  apply (generateWallet_without_signers_fails (P := example_provider)
           0 0 empty_config signerless_wallet); [reflexivity | lia].
Defined.

(** ** An invariant of the wallet object *)

Lemma generateWallet_loop_this {P : Provider} (todo : nat) :
  forall (i : Z) (s : State),
  exists kps,
    this (fst (generateWallet_loop todo i s))
    = set_keyPairs (keyPairs (this s) ++ kps) (this s)
    /\ Forall (fun kp => privateKey kp <> None) kps.
Proof.
  induction todo as [|todo IH]; intros i s.
  - exists []. cbn. rewrite app_nil_r. split; [|constructor].
    destruct (this s); reflexivity.
  - cbn [generateWallet_loop]. unfold bind at 1.
    pose proof (generateKeyPair_this i s) as Ht.
    pose proof (generateKeyPair_result i s) as Hr.
    destruct (generateKeyPair i s) as [s1 [kp|e]]; cbn in Ht, Hr.
    + unfold bind, get_this, set_this. cbn.
      set (s2 := {| this := set_keyPairs (keyPairs (this s1) ++ [kp]) (this s1);
                    draws := draws s1; trace := trace s1 |}).
      destruct (IH (i + 1) s2) as (kps & Hthis & Hall).
      exists (kp :: kps). rewrite Hthis. subst s2. cbn. rewrite Ht.
      rewrite <- app_assoc. split; [reflexivity|].
      constructor; [|exact Hall].
      symmetry in Hr. eapply slot_keyPair_private; eauto.
    + exists []. cbn. rewrite Ht, app_nil_r. split; [|constructor].
      destruct (this s); reflexivity.
Qed.

Lemma createMultisigAddresses_this {P : Provider} (s : State) :
  let w := this s in
  let w' := this (fst (createMultisigAddresses s)) in
  w' = w
  \/ exists kp rest,
       keyPairs w = kp :: rest
       /\ (w' = set_redeemScript (p2pkh_script (publicKey kp)) w
           \/ exists a, w' = set_addresses a
                               (set_redeemScript (p2pkh_script (publicKey kp)) w)).
Proof.
  cbv zeta. unfold createMultisigAddresses, bind, get_this. rewrite call_run.
  unfold p2pkh.
  destruct (keyPairs (this s)) as [|kp rest] eqn:Hk; cbn [map nth_error];
    [left; reflexivity|].
  destruct (negb (ecc_isPoint (publicKey kp))); [left; reflexivity|].
  cbn [pay_output]. right. exists kp, rest. split; [reflexivity|].
  unfold set_this. cbn [this draws trace logged]. rewrite call_run.
  destruct (payments_p2sh _ _) as [p1|]; [|left; reflexivity]. rewrite call_run.
  destruct (payments_p2wsh _ _) as [p2|]; [|left; reflexivity].
  destruct (pay_address p1) as [[|c1 a1]|]; try (left; reflexivity);
    destruct (pay_address p2) as [[|c2 a2]|]; try (left; reflexivity).
  right. eexists. reflexivity.
Qed.

Lemma wallet_invariant_generateWallet {P : Provider} (s : State) :
  wallet_invariant (this s) -> wallet_invariant (this (fst (generateWallet s))).
Proof.
  intros (Hpol & Hnet & Hpriv & Haddr & Hrs).
  unfold generateWallet, bind at 1, get_this. unfold bind at 1.
  destruct (generateWallet_loop_this (Z.to_nat (totalSigners (this s))) 0 s)
    as (kps & Hthis & Hkps).
  destruct (generateWallet_loop _ _ s) as [s1 [[]|e]]; cbn [fst] in *.
  - assert (Hinv1 : wallet_invariant (this s1)).
    { rewrite Hthis. unfold wallet_invariant. cbn.
      split; [exact Hpol|]. split; [exact Hnet|].
      split; [apply Forall_app; auto|]. split; [exact Haddr|].
      intros rs Hr. destruct (Hrs rs Hr) as (kp & rest & Hk & ->).
      exists kp, (rest ++ kps). rewrite Hk. auto. }
    clear Hthis. destruct Hinv1 as (Hp1 & Hn1 & Hv1 & Ha1 & Hr1).
    destruct (createMultisigAddresses_this s1) as [Heq|(kp & rest & Hk & [Heq|(a & Heq)])];
      cbv zeta in Heq; rewrite Heq; unfold wallet_invariant; cbn.
    + auto 6.
    + repeat split; auto; try discriminate.
      intros rs Hr. inversion Hr. eauto.
    + repeat split; auto; try discriminate.
      intros rs Hr. inversion Hr. eauto.
  - rewrite Hthis. unfold wallet_invariant. cbn.
    split; [exact Hpol|]. split; [exact Hnet|].
    split; [apply Forall_app; auto|]. split; [exact Haddr|].
    intros rs Hr. destruct (Hrs rs Hr) as (kp & rest & Hk & ->).
    exists kp, (rest ++ kps). rewrite Hk. auto.
Qed.

(** X3: whatever sequence of [generateWallet], [generateKeyPair] and
    [signTransaction] calls a constructed wallet has seen, failed ones
    included: the threshold does not exceed the number of signers, the
    network is the test network, every stored record has a private key,
    addresses are present only together with a cached script, and a cached
    script is the pay-to-public-key-hash script of the first stored key. *)
Theorem reachable_wallet_invariant {P : Provider} (s : State) :
  reachable s -> wallet_invariant (this s).
Proof.
  induction 1 as [m n cfg w Hc | s Hs IH | index s Hs IH | txHex i kp s Hs IH].
  - unfold constructor in Hc. destruct (m >? n) eqn:Hmn; [discriminate|].
    inversion Hc; subst w; clear Hc. unfold wallet_invariant. cbn.
    repeat split; try discriminate; try constructor; try congruence.
    rewrite Z.gtb_ltb in Hmn. apply Z.ltb_ge in Hmn. exact Hmn.
  - now apply wallet_invariant_generateWallet.
  - now rewrite generateKeyPair_this.
  - now rewrite signTransaction_this.
Qed.

Lemma reachable_invariant_witness :
  @wallet_invariant example_provider (this example_state_twice).
Proof.
  apply (reachable_wallet_invariant (P := example_provider)).
  apply reach_generateWallet.
  apply reach_generateWallet.
  apply (reach_new 2 3 example_config). reflexivity.
Defined.

(** ** Running [generateWallet] again *)

(** X4: [generateWallet] is not idempotent.  A second successful run on a
    generated wallet appends another [totalSigners] records after the old
    ones, so the getters return twice as many entries, while the cached
    redeem script and the p2sh address stay those of the first run. *)
Theorem generateWallet_twice_appends {P : Provider}
    (m n : Z) (cfg : WalletConfig) (w : MultisigWallet) (s s2 : State) :
  constructor m n cfg = Ok w ->
  generateWallet (initial w) = (s, Ok tt) ->
  generateWallet s = (s2, Ok tt) ->
  (exists more, keyPairs (this s2) = keyPairs (this s) ++ more
                /\ List.length more = Z.to_nat n)
  /\ List.length (getPublicKeys (this s2)) = (2 * Z.to_nat n)%nat
  /\ getRedeemScript (this s2) = getRedeemScript (this s)
  /\ (exists a a2, getAddresses (this s) = Some a
                   /\ getAddresses (this s2) = Some a2 /\ p2sh a2 = p2sh a).
Proof.
  intros Hc Hg Hg2.
  apply constructor_ok in Hc as (_ & Hn & _ & Hk & _).
  apply generateWallet_ok in Hg
    as (kps & pk0 & rest & a1 & a2 & Hlen & _ & Hpks & Hthis & Ha1 & _).
  cbv zeta in Hthis, Ha1. cbn [this initial] in Hlen, Hpks, Hthis, Ha1.
  rewrite Hk in Hpks, Hthis. cbn [app] in Hpks, Hthis.
  rewrite Hn in Hlen.
  apply generateWallet_ok in Hg2
    as (kps' & pk0' & rest' & a1' & a2' & Hlen' & _ & Hpks' & Hthis' & Ha1' & _).
  cbv zeta in Hthis', Ha1'.
  rewrite Hthis in Hlen', Hpks', Hthis', Ha1'.
  cbn [totalSigners keyPairs network set_addresses set_redeemScript set_keyPairs]
    in Hlen', Hpks', Hthis', Ha1'.
  rewrite Hn in Hlen'.
  assert (Hpk : pk0' = pk0).
  { rewrite map_app, Hpks in Hpks'. cbn in Hpks'. now inversion Hpks'. }
  subst pk0'.
  unfold getPublicKeys, getRedeemScript, getAddresses. rewrite Hthis', Hthis.
  cbn [keyPairs redeemScript addresses set_addresses set_redeemScript set_keyPairs].
  split; [exists kps'; auto|].
  split; [rewrite length_map, length_app; lia|].
  split; [reflexivity|].
  eexists. eexists. split; [reflexivity|]. split; [reflexivity|].
  cbn [p2sh]. congruence.
Qed.

Lemma generateWallet_twice_witness :
  (exists more, keyPairs (this example_state_twice)
                = keyPairs (this example_state) ++ more
                /\ List.length more = Z.to_nat 3)
  /\ List.length (getPublicKeys (this example_state_twice)) = (2 * Z.to_nat 3)%nat
  /\ getRedeemScript (this example_state_twice)
     = getRedeemScript (this example_state)
  /\ (exists a a2, getAddresses (this example_state) = Some a
                   /\ getAddresses (this example_state_twice) = Some a2
                   /\ p2sh a2 = p2sh a).
Proof.
  apply (generateWallet_twice_appends (P := example_provider)
           2 3 example_config example_wallet example_state example_state_twice);
    vm_compute; reflexivity.
Defined.

(** ** What the script and the addresses commit to *)

(** X5: after a successful [generateWallet] the two addresses commit to
    different scripts.  The p2sh address is the Base58Check form of
    hash160 of the cached redeem script under the test network's script
    version; the p2wsh address is the Bech32 form of sha256 of another
    script, OP_1 pk_0 ... pk_{n-1} OP_1 OP_CHECKMULTISIG, which is never the
    cached redeem script and mentions neither m nor n. *)
Theorem addresses_commit_to_two_scripts {P : Provider} (HP : ProviderOK P)
    (m n : Z) (cfg : WalletConfig) (w : MultisigWallet) (s' : State) :
  constructor m n cfg = Ok w ->
  generateWallet (initial w) = (s', Ok tt) ->
  exists rs a,
    getRedeemScript (this s') = Ok rs
    /\ getAddresses (this s') = Some a
    /\ p2sh a = toBase58Check (hash160 rs) (scriptHash networks.testnet)
    /\ toBech32 (sha256 (p2wsh_script (getPublicKeys (this s')))) 0
         (bech32 networks.testnet) = Ok (p2wsh a)
    /\ p2wsh_script (getPublicKeys (this s')) <> rs.
Proof.
  intros Hc Hg.
  apply constructor_ok in Hc as (_ & _ & Hnet & Hk & _).
  apply generateWallet_ok in Hg
    as (kps & pk0 & rest & a1 & a2 & _ & _ & Hpks & Hthis & Ha1 & Ha2).
  cbv zeta in Hthis, Ha1, Ha2. cbn [this initial] in Hpks, Hthis, Ha1, Ha2.
  rewrite Hk in Hpks, Hthis. cbn [app] in Hpks, Hthis.
  rewrite Hnet in Ha1, Ha2.
  exists (p2pkh_script pk0), {| p2sh := a1; p2wsh := a2 |}.
  unfold getRedeemScript, getAddresses, getPublicKeys. rewrite Hthis.
  cbn [keyPairs redeemScript addresses set_addresses set_redeemScript
       set_keyPairs p2sh p2wsh].
  rewrite Hpks.
  split; [reflexivity|]. split; [reflexivity|]. split; [exact Ha1|].
  split; [exact Ha2|].
  intros Heq.
  assert (H1 : nth 0 (p2wsh_script (pk0 :: rest)) 0 = OPS.OP_1) by reflexivity.
  assert (H2 : nth 0 (p2pkh_script pk0) 0 = OPS.OP_DUP) by reflexivity.
  rewrite Heq, H2 in H1. discriminate.
Qed.

Lemma addresses_commit_witness :
  exists rs a,
    getRedeemScript (this example_state) = Ok rs
    /\ getAddresses (this example_state) = Some a
    /\ p2sh a = @toBase58Check example_provider (@hash160 example_provider rs)
                  (scriptHash networks.testnet)
    /\ toBech32 (@sha256 example_provider
                   (p2wsh_script (getPublicKeys (this example_state)))) 0
         (bech32 networks.testnet) = Ok (p2wsh a)
    /\ p2wsh_script (getPublicKeys (this example_state)) <> rs.
Proof.
  apply (addresses_commit_to_two_scripts example_provider_ok
           2 3 example_config example_wallet example_state);
    vm_compute; reflexivity.
Defined.

(** ** The threshold and the configuration do not matter *)

Lemma generateWallet_loop_step {P : Provider} (todo : nat) (i : Z) (s : State) :
  generateWallet_loop (S todo) i s
  = match generateKeyPair i s with
    | (s1, Ok kp) =>
        generateWallet_loop todo (i + 1)
          {| this := set_keyPairs (keyPairs (this s1) ++ [kp]) (this s1);
             draws := draws s1; trace := trace s1 |}
    | (s1, Throw e) => (s1, Throw e)
    end.
Proof.
  cbn [generateWallet_loop]. unfold bind at 1.
  destruct (generateKeyPair i s) as [s1 [kp|e]]; reflexivity.
Qed.

Lemma generateWallet_loop_sim {P : Provider} (todo : nat) :
  forall (i : Z) (s1 s2 : State),
  same_but_policy (this s1) (this s2) -> draws s1 = draws s2 ->
  snd (generateWallet_loop todo i s1) = snd (generateWallet_loop todo i s2)
  /\ same_but_policy (this (fst (generateWallet_loop todo i s1)))
                     (this (fst (generateWallet_loop todo i s2)))
  /\ draws (fst (generateWallet_loop todo i s1))
     = draws (fst (generateWallet_loop todo i s2)).
Proof.
  induction todo as [|todo IH]; intros i s1 s2 Hsim Hd.
  - cbn. auto.
  - rewrite !generateWallet_loop_step.
    pose proof (generateKeyPair_this i s1) as Ht1.
    pose proof (generateKeyPair_this i s2) as Ht2.
    pose proof (generateKeyPair_draws i s1) as Hd1.
    pose proof (generateKeyPair_draws i s2) as Hd2.
    pose proof (generateKeyPair_result i s1) as Hr1.
    pose proof (generateKeyPair_result i s2) as Hr2.
    assert (Hnet : network (this s1) = network (this s2)) by apply Hsim.
    rewrite Hnet, Hd, <- Hr2 in Hr1.
    destruct (generateKeyPair i s1) as [s1' r1];
      destruct (generateKeyPair i s2) as [s2' r2].
    cbn [fst snd] in *. subst r1.
    destruct r2 as [kp|e]; cbn [fst snd].
    + apply IH; cbn [this draws]; [|congruence].
      rewrite Ht1, Ht2. unfold same_but_policy, set_keyPairs in *. cbn.
      destruct Hsim as (H1 & H2 & H3 & H4 & H5). rewrite H3. auto.
    + rewrite Ht1, Ht2. split; [reflexivity|]. split; [exact Hsim | congruence].
Qed.

Lemma createMultisigAddresses_sim {P : Provider} (s1 s2 : State) :
  same_but_policy (this s1) (this s2) ->
  snd (createMultisigAddresses s1) = snd (createMultisigAddresses s2)
  /\ same_but_policy (this (fst (createMultisigAddresses s1)))
                     (this (fst (createMultisigAddresses s2))).
Proof.
  intros (H1 & H2 & H3 & H4 & H5).
  unfold createMultisigAddresses, bind, get_this. rewrite ?call_run.
  rewrite H2, H3.
  destruct (p2pkh _ _) as [pay|];
    [|cbn; unfold same_but_policy; auto 6].
  destruct (pay_output pay) as [rs|];
    [|cbn; unfold same_but_policy; auto 6].
  unfold set_this. cbn [this draws trace logged]. rewrite ?call_run.
  destruct (payments_p2sh _ _) as [p1|];
    [|cbn; unfold same_but_policy; cbn; auto 6].
  rewrite ?call_run.
  destruct (payments_p2wsh _ _) as [p2|];
    [|cbn; unfold same_but_policy; cbn; auto 6].
  destruct (pay_address p1) as [[|c1 a1]|];
    try (cbn; unfold same_but_policy; cbn; auto 6);
    destruct (pay_address p2) as [[|c2 a2]|];
    cbn; unfold same_but_policy; cbn; auto 6.
Qed.

Lemma generateWallet_step {P : Provider} (s : State) :
  generateWallet s
  = match generateWallet_loop (Z.to_nat (totalSigners (this s))) 0 s with
    | (s1, Ok _) => createMultisigAddresses s1
    | (s1, Throw e) => (s1, Throw e)
    end.
Proof.
  unfold generateWallet, bind at 1, get_this. unfold bind at 1.
  destruct (generateWallet_loop _ _ s) as [s1 [u|e]]; reflexivity.
Qed.

Lemma generateWallet_sim {P : Provider} (s1 s2 : State) :
  same_but_policy (this s1) (this s2) -> draws s1 = draws s2 ->
  snd (generateWallet s1) = snd (generateWallet s2)
  /\ same_but_policy (this (fst (generateWallet s1)))
                     (this (fst (generateWallet s2))).
Proof.
  intros Hsim Hd. rewrite !generateWallet_step.
  assert (Hn : totalSigners (this s1) = totalSigners (this s2)) by apply Hsim.
  rewrite Hn.
  destruct (generateWallet_loop_sim (Z.to_nat (totalSigners (this s2))) 0
              s1 s2 Hsim Hd) as (Hres & Hsim1 & _).
  destruct (generateWallet_loop _ 0 s1) as [t1 r1];
    destruct (generateWallet_loop _ 0 s2) as [t2 r2].
  cbn [fst snd] in *. subst r2.
  destruct r1 as [u|e]; cbn [fst snd].
  - now apply createMultisigAddresses_sim.
  - auto.
Qed.

(** X6: neither the threshold m nor anything in the configuration
    influences what [generateWallet] produces.  Two new wallets with the
    same number of signers get the same outcome (success or the same
    exception), the same records, the same redeem script and the same
    addresses. *)
Theorem generateWallet_ignores_threshold_and_config {P : Provider}
    (m m' n : Z) (cfg cfg' : WalletConfig) (w w' : MultisigWallet) :
  constructor m n cfg = Ok w ->
  constructor m' n cfg' = Ok w' ->
  snd (generateWallet (initial w)) = snd (generateWallet (initial w'))
  /\ keyPairs (this (fst (generateWallet (initial w))))
     = keyPairs (this (fst (generateWallet (initial w'))))
  /\ redeemScript (this (fst (generateWallet (initial w))))
     = redeemScript (this (fst (generateWallet (initial w'))))
  /\ addresses (this (fst (generateWallet (initial w))))
     = addresses (this (fst (generateWallet (initial w')))).
Proof.
  intros Hc Hc'.
  apply constructor_ok in Hc as (_ & Hn & Hnet & Hk & Hr & Ha).
  apply constructor_ok in Hc' as (_ & Hn' & Hnet' & Hk' & Hr' & Ha').
  assert (Hsim : same_but_policy (this (initial w)) (this (initial w')))
    by (unfold same_but_policy; cbn; repeat split; congruence).
  destruct (generateWallet_sim (initial w) (initial w') Hsim eq_refl)
    as (Hres & _ & _ & Hkeys & Hscript & Haddr).
  auto.
Qed.

Lemma ignores_threshold_witness :
  snd (@generateWallet example_provider (initial example_wallet))
  = snd (@generateWallet example_provider (initial example_wallet_1of3))
  /\ keyPairs (this (fst (@generateWallet example_provider (initial example_wallet))))
     = keyPairs (this (fst (@generateWallet example_provider
                              (initial example_wallet_1of3))))
  /\ redeemScript (this (fst (@generateWallet example_provider
                                (initial example_wallet))))
     = redeemScript (this (fst (@generateWallet example_provider
                                  (initial example_wallet_1of3))))
  /\ addresses (this (fst (@generateWallet example_provider
                             (initial example_wallet))))
     = addresses (this (fst (@generateWallet example_provider
                               (initial example_wallet_1of3)))).
Proof.
  apply (generateWallet_ignores_threshold_and_config (P := example_provider)
           2 1 3 example_config
           {| cfg_network := None; cfg_derivationPath := Some "m/48'/0'/0'/2'"%string |}
           example_wallet example_wallet_1of3);
    reflexivity.
Defined.

(** ** When [signTransaction] succeeds, and what it touches *)

Lemma hashForSignature_ok_in_range {P : Provider} (tx : Transaction) (i : Z)
    (sc : option Buffer) (digest : Buffer) :
  hashForSignature tx i sc SIGHASH.NONE = Ok digest ->
  0 <= i < Z.of_nat (List.length (ins tx)) ->
  exists rs cs, sc = Some rs /\ decompile rs = Some cs.
Proof.
  unfold hashForSignature. destruct sc as [rs|]; [|discriminate].
  destruct (i <? 0) eqn:H0; [discriminate|].
  destruct (Z.of_nat (List.length (ins tx)) <=? i) eqn:H1;
    [apply Z.leb_le in H1; lia|].
  destruct (decompile rs) as [cs|] eqn:Hcs; [|discriminate].
  intros _. exists rs, cs. auto.
Qed.

Lemma setInputScript_in_range (tx : Transaction) (i : Z) (sc : Buffer) :
  0 <= i < Z.of_nat (List.length (ins tx)) ->
  exists tx', setInputScript tx i sc = Ok tx'.
Proof.
  intros Hi. unfold setInputScript.
  destruct (i <? 0) eqn:H0; [apply Z.ltb_lt in H0; lia|].
  destruct (Z.of_nat (List.length (ins tx)) <=? i) eqn:H1;
    [apply Z.leb_le in H1; lia|].
  cbn [orb]. eauto.
Qed.

Lemma signTransaction_is_ok_iff {P : Provider}
    (txHex : string) (i : Z) (kp : KeyPairInfo) (s : State) :
  is_ok (snd (signTransaction txHex i kp s)) = true
  <-> exists tx rs cs priv,
        Transaction_fromHex txHex = Some tx
        /\ redeemScript (this s) = Some rs
        /\ decompile rs = Some cs
        /\ 0 <= i < Z.of_nat (List.length (ins tx))
        /\ privateKey kp = Some priv
        /\ ecc_isPrivate priv = true.
Proof.
  rewrite signTransaction_run. split.
  - destruct (Transaction_fromHex txHex) as [tx|]; [|discriminate]. cbv zeta.
    destruct (hashForSignature _ _ _ _) as [d|] eqn:Hd; [|discriminate].
    destruct (privateKey kp) as [priv|]; [|discriminate].
    destruct (ecc_isPrivate priv) eqn:Hp; [|discriminate].
    destruct (setInputScript _ _ _) as [tx'|] eqn:Hset; [|discriminate].
    intros _. apply setInputScript_ok in Hset as (Hi & _).
    destruct (hashForSignature_ok_in_range _ _ _ _ Hd Hi) as (rs & cs & Hrs & Hcs).
    exists tx, rs, cs, priv. auto 8.
  - intros (tx & rs & cs & priv & -> & -> & Hcs & Hi & -> & ->). cbv zeta.
    destruct (hashForSignature_in_range tx i rs cs SIGHASH.NONE Hcs Hi eq_refl)
      as (digest & ->).
    destruct (setInputScript_in_range tx i
                (compile [Data (ecc_sign priv digest); Data (publicKey kp)]) Hi)
      as (tx' & ->).
    reflexivity.
Qed.

(** X7: [signTransaction] succeeds exactly when the hex string parses, a
    redeem script is cached and decompiles, the index addresses an input of
    the transaction, and the record carries a private key that the curve
    library accepts.  Nothing else is checked: not the public key of the
    record, nor whether the record belongs to the wallet. *)
Theorem signTransaction_succeeds_iff {P : Provider}
    (txHex : string) (i : Z) (kp : KeyPairInfo) (s : State) :
  is_ok (snd (signTransaction txHex i kp s)) = true
  <-> exists tx rs cs priv,
        Transaction_fromHex txHex = Some tx
        /\ redeemScript (this s) = Some rs
        /\ decompile rs = Some cs
        /\ 0 <= i < Z.of_nat (List.length (ins tx))
        /\ privateKey kp = Some priv
        /\ ecc_isPrivate priv = true.
Proof. apply signTransaction_is_ok_iff. Qed.

Lemma map_at_length {A} (f : A -> A) (l : list A) :
  forall k, List.length (map_at k f l) = List.length l.
Proof.
  induction l as [|x l IH]; intros [|k]; cbn; auto.
Qed.

Lemma map_at_other {A} (f : A -> A) (l : list A) :
  forall k j, j <> k -> nth_error (map_at k f l) j = nth_error l j.
Proof.
  induction l as [|x l IH]; intros [|k] [|j] H; cbn; auto; try congruence.
Qed.

(** X8: a successful [signTransaction] returns the parsed transaction with
    one change, the script of the addressed input.  Version, lock time,
    outputs, the number of inputs, every other input, and the outpoint,
    sequence and witness of the addressed input are as parsed; the wallet
    object is unchanged and no entropy is drawn. *)
Theorem signTransaction_changes_one_script {P : Provider}
    (txHex : string) (i : Z) (kp : KeyPairInfo) (s s' : State) (hex : string) :
  signTransaction txHex i kp s = (s', Ok hex) ->
  exists tx tx' inp inp',
    Transaction_fromHex txHex = Some tx
    /\ hex = Transaction_toHex tx'
    /\ tx_version tx' = tx_version tx /\ tx_locktime tx' = tx_locktime tx
    /\ outs tx' = outs tx
    /\ List.length (ins tx') = List.length (ins tx)
    /\ (forall j, j <> Z.to_nat i -> nth_error (ins tx') j = nth_error (ins tx) j)
    /\ nth_error (ins tx) (Z.to_nat i) = Some inp
    /\ nth_error (ins tx') (Z.to_nat i) = Some inp'
    /\ in_hash inp' = in_hash inp /\ in_index inp' = in_index inp
    /\ in_sequence inp' = in_sequence inp /\ in_witness inp' = in_witness inp
    /\ this s' = this s /\ draws s' = draws s.
Proof.
  intros H.
  apply signTransaction_ok in H
    as (tx & digest & priv & tx' & Hhex & _ & _ & Hset & -> & ->).
  unfold setInputScript in Hset.
  destruct (i <? 0) eqn:H0; [discriminate|].
  destruct (Z.of_nat (List.length (ins tx)) <=? i) eqn:H1; [discriminate|].
  apply Z.ltb_ge in H0. apply Z.leb_gt in H1.
  cbn [orb] in Hset. inversion Hset; subst tx'; clear Hset.
  destruct (nth_error (ins tx) (Z.to_nat i)) as [inp|] eqn:Hn;
    [|apply nth_error_None in Hn; lia].
  exists tx. eexists. exists inp. eexists.
  cbn [tx_version tx_locktime outs ins this draws logged].
  split; [exact Hhex|]. split; [reflexivity|].
  split; [reflexivity|]. split; [reflexivity|]. split; [reflexivity|].
  split; [apply map_at_length|].
  split; [intros j Hj; now apply map_at_other|].
  split; [exact Hn|].
  split; [apply map_at_nth; exact Hn|].
  cbn. auto 8.
Qed.

Lemma signTransaction_one_script_witness :
  exists tx tx' inp inp',
    @Transaction_fromHex example_provider EmptyString = Some tx
    /\ EmptyString = @Transaction_toHex example_provider tx'
    /\ tx_version tx' = tx_version tx /\ tx_locktime tx' = tx_locktime tx
    /\ outs tx' = outs tx
    /\ List.length (ins tx') = List.length (ins tx)
    /\ (forall j, j <> Z.to_nat 0 -> nth_error (ins tx') j = nth_error (ins tx) j)
    /\ nth_error (ins tx) (Z.to_nat 0) = Some inp
    /\ nth_error (ins tx') (Z.to_nat 0) = Some inp'
    /\ in_hash inp' = in_hash inp /\ in_index inp' = in_index inp
    /\ in_sequence inp' = in_sequence inp /\ in_witness inp' = in_witness inp
    /\ this (fst example_signed) = this example_state
    /\ draws (fst example_signed) = draws example_state.
Proof.
  apply (signTransaction_changes_one_script (P := example_provider)
           EmptyString 0 example_keyPair example_state (fst example_signed)
           EmptyString).
  vm_compute. reflexivity.
Defined.

(** ** Scripts already on the transaction *)

Lemma map_map_except {A} (g f : A -> A) :
  (forall x, g (f x) = f (g x)) ->
  forall (l : list A) (k : nat),
  map g (map_except k f l) = map_except k f (map g l).
Proof.
  intros Hc. induction l as [|x l IH]; intros [|k]; cbn; auto.
  - f_equal. rewrite !map_map. apply map_ext. auto.
  - now rewrite Hc, IH.
Qed.

Lemma hashForSignature_none_ignores_scripts {P : Provider}
    (tx tx' : Transaction) (i : Z) (sc : option Buffer) :
  same_but_scripts tx tx' ->
  hashForSignature tx i sc SIGHASH.NONE = hashForSignature tx' i sc SIGHASH.NONE.
Proof.
  intros (Hv & Hl & Ho & Hi). unfold hashForSignature.
  destruct sc as [rs|]; [|reflexivity].
  assert (Hlen : List.length (ins tx) = List.length (ins tx'))
    by (rewrite <- (length_map (set_script []) (ins tx)), Hi; apply length_map).
  rewrite Hlen, Hv, Hl.
  destruct (i <? 0); [reflexivity|].
  destruct (Z.of_nat (List.length (ins tx')) <=? i); [reflexivity|].
  destruct (decompile rs) as [cs|]; [|reflexivity].
  change (Z.land SIGHASH.NONE 31 =? SIGHASH.NONE) with true.
  change (negb (Z.land SIGHASH.NONE SIGHASH.ANYONECANPAY =? 0)) with false.
  cbv iota zeta.
  rewrite !(map_map_except (set_script []) (set_sequence 0))
    by reflexivity.
  rewrite Hi. reflexivity.
Qed.

(** X9: signatures do not accumulate.  The unlocking script that a
    successful [signTransaction] writes does not depend on any script the
    transaction carried before, a previous signer's included: for two hex
    strings whose transactions differ only in their input scripts, both
    calls succeed and write the same script at the addressed input. *)
Theorem signTransaction_discards_earlier_scripts {P : Provider}
    (h1 h2 : string) (tx1 tx2 : Transaction) (i : Z) (kp : KeyPairInfo)
    (s s1 : State) (r1 : string) :
  Transaction_fromHex h1 = Some tx1 ->
  Transaction_fromHex h2 = Some tx2 ->
  same_but_scripts tx1 tx2 ->
  signTransaction h1 i kp s = (s1, Ok r1) ->
  exists s2 tx1' tx2' inp1 inp2,
    signTransaction h2 i kp s = (s2, Ok (Transaction_toHex tx2'))
    /\ r1 = Transaction_toHex tx1'
    /\ nth_error (ins tx1') (Z.to_nat i) = Some inp1
    /\ nth_error (ins tx2') (Z.to_nat i) = Some inp2
    /\ in_script inp1 = in_script inp2.
Proof.
  intros Hh1 Hh2 Hsame H.
  assert (Hok : is_ok (snd (signTransaction h1 i kp s)) = true)
    by now rewrite H.
  apply signTransaction_is_ok_iff in Hok
    as (tx0 & rs & cs & priv0 & _ & _ & _ & _ & Hpriv0 & Hvalid).
  apply signTransaction_ok in H
    as (tx & digest & priv & tx1' & Hhex & Hd & Hpriv & Hset & -> & ->).
  rewrite Hpriv in Hpriv0. inversion Hpriv0; subst priv0; clear Hpriv0.
  rewrite Hh1 in Hhex. inversion Hhex; subst tx; clear Hhex.
  pose proof (setInputScript_ok _ _ _ _ Hset) as (Hi & _ & inp1 & Hinp1 & Hsc1).
  assert (Hlen : List.length (ins tx1) = List.length (ins tx2)).
  { destruct Hsame as (_ & _ & _ & Hm).
    rewrite <- (length_map (set_script []) (ins tx1)), Hm. apply length_map. }
  rewrite Hlen in Hi.
  destruct (setInputScript_in_range tx2 i
              (compile [Data (ecc_sign priv digest); Data (publicKey kp)]) Hi)
    as (tx2' & Hset2).
  pose proof (setInputScript_ok _ _ _ _ Hset2) as (_ & _ & inp2 & Hinp2 & Hsc2).
  exists (logged s [CallFromHex; CallHashForSignature i SIGHASH.NONE;
                    CallFromPrivateKey; CallSign; CallSetInputScript i;
                    CallToHex]), tx1', tx2', inp1, inp2.
  split.
  - rewrite signTransaction_run, Hh2. cbv zeta.
    rewrite <- (hashForSignature_none_ignores_scripts tx1 tx2) by exact Hsame.
    rewrite Hd, Hpriv, Hvalid, Hset2. reflexivity.
  - repeat split; auto. congruence.
Qed.

Lemma discards_earlier_scripts_witness :
  exists s2 tx1' tx2' inp1 inp2,
    @signTransaction example_provider_two "01" 0 example_keyPair example_state_two
    = (s2, Ok (@Transaction_toHex example_provider_two tx2'))
    /\ EmptyString = @Transaction_toHex example_provider_two tx1'
    /\ nth_error (ins tx1') (Z.to_nat 0) = Some inp1
    /\ nth_error (ins tx2') (Z.to_nat 0) = Some inp2
    /\ in_script inp1 = in_script inp2.
Proof.
  apply (signTransaction_discards_earlier_scripts (P := example_provider_two)
           EmptyString "01" example_tx example_tx_presigned 0 example_keyPair
           example_state_two
           (fst (@signTransaction example_provider_two EmptyString 0
                   example_keyPair example_state_two))
           EmptyString).
  - reflexivity.
  - reflexivity.
  - unfold same_but_scripts. repeat split; reflexivity.
  - vm_compute. reflexivity.
Defined.

(** ** Signing before [generateWallet] *)

(** X10: on a wallet on which [generateWallet] has not run,
    [signTransaction] never succeeds.  When the hex string parses, the call
    ends in the library's TypeError for the missing script, raised by
    [hashForSignature] before the private key is looked at and before
    anything is signed. *)
Theorem signTransaction_needs_generated_wallet {P : Provider}
    (txHex : string) (i : Z) (kp : KeyPairInfo) (s : State) :
  idle s ->
  is_ok (snd (signTransaction txHex i kp s)) = false
  /\ forall tx, Transaction_fromHex txHex = Some tx ->
       exists origin,
         signTransaction txHex i kp s
         = (logged s [CallFromHex; CallHashForSignature i SIGHASH.NONE],
            Throw (TypeError origin)).
Proof.
  intros Hidle. apply idle_uninitialized in Hidle as (Hrs & _).
  rewrite signTransaction_run, Hrs.
  destruct (Transaction_fromHex txHex) as [tx|]; cbn.
  - split; [reflexivity|]. intros tx' _. eauto.
  - split; [reflexivity|]. intros tx' H. discriminate.
Qed.

Lemma needs_generated_wallet_witness :
  is_ok (snd (@signTransaction example_provider EmptyString 0 example_keyPair
                (initial example_wallet))) = false
  /\ forall tx, @Transaction_fromHex example_provider EmptyString = Some tx ->
       exists origin,
         @signTransaction example_provider EmptyString 0 example_keyPair
           (initial example_wallet)
         = (logged (initial example_wallet)
              [CallFromHex; CallHashForSignature 0 SIGHASH.NONE],
            Throw (TypeError origin)).
Proof.
  apply (signTransaction_needs_generated_wallet (P := example_provider)).
  apply (idle_new 2 3 example_config). reflexivity.
Defined.

(** ** [validatePath] *)

Lemma length_split (c : ascii) (s : string) :
  List.length (split c s) = S (count_char c s).
Proof.
  induction s as [|a s IH]; [reflexivity|].
  cbn [split count_char]. destruct (Ascii.eqb a c).
  - cbn [List.length]. now rewrite IH.
  - destruct (split c s) as [|w ws]; [discriminate|]. cbn in *. exact IH.
Qed.

Lemma count_char_append (c : ascii) (a b : string) :
  count_char c (append a b) = (count_char c a + count_char c b)%nat.
Proof.
  induction a as [|x a IH]; [reflexivity|].
  cbn [append count_char]. rewrite IH. lia.
Qed.

(** X11: [validatePath] accepts exactly the strings that start with "m/"
    and contain four slashes in all. *)
Theorem validatePath_counts_slashes (p : string) :
  validatePath p = String.prefix "m/" p && (count_char "/" p =? 4)%nat.
Proof.
  unfold validatePath. rewrite length_split. reflexivity.
Qed.

Lemma bare_index_has_no_prefix (index : Z) :
  String.prefix "m/" (Number_toString index) = false.
Proof.
  unfold Number_toString.
  destruct (Z.to_int index) as [d|d]; [|reflexivity].
  destruct d; reflexivity.
Qed.

(** X12: [validatePath] rejects every path the wallet records for its own
    keys (a bare index does not start with "m/"), and it rejects every path
    of the template m/48'/0'/0'/2'/index as well, which has five slashes. *)
Theorem validatePath_rejects_recorded_and_template_paths {P : Provider}
    (m n : Z) (cfg : WalletConfig) (w : MultisigWallet) (s' : State) :
  constructor m n cfg = Ok w ->
  generateWallet (initial w) = (s', Ok tt) ->
  Forall (fun p => validatePath p = false) (getDerivationPaths (this s'))
  /\ forall index, validatePath (template_path index) = false.
Proof.
  intros Hc Hg. split.
  - apply constructor_ok in Hc as (_ & _ & _ & Hk & _).
    apply generateWallet_ok in Hg
      as (kps & pk0 & rest & a1 & a2 & _ & Hslots & _ & Hthis & _).
    cbn in Hslots, Hthis. rewrite Hk in Hthis. cbn in Hthis.
    unfold getDerivationPaths. rewrite Hthis. cbn.
    rewrite (slots_paths _ _ _ _ Hslots).
    apply Forall_forall. intros p Hp. apply in_map_iff in Hp as (j & <- & _).
    unfold validatePath. now rewrite bare_index_has_no_prefix.
  - intros index. unfold validatePath. rewrite length_split.
    unfold template_path. rewrite count_char_append.
    change (count_char "/" "m/48'/0'/0'/2'/") with 5%nat.
    apply andb_false_iff. right. reflexivity.
Qed.

Lemma validatePath_rejects_witness :
  Forall (fun p => validatePath p = false)
         (getDerivationPaths (this example_state))
  /\ forall index, validatePath (template_path index) = false.
Proof.
  apply (validatePath_rejects_recorded_and_template_paths (P := example_provider)
           2 3 example_config example_wallet example_state);
    vm_compute; reflexivity.
Defined.

(** ** [validateMultisigScript] *)

Lemma validateMultisigScript_chunks (script : Buffer) (cs : list chunk) (c : chunk) :
  decompile script = Some (cs ++ [c]) ->
  validateMultisigScript script
  = (3 <=? List.length cs)%nat
    && match c with
       | Op opcode => opcode =? OPS.OP_CHECKMULTISIG
       | Data _ => false
       end.
Proof.
  intros H. unfold validateMultisigScript. rewrite H.
  rewrite length_app. cbn [List.length].
  replace (List.length cs + 1 - 1)%nat with (List.length cs) by lia.
  rewrite nth_error_app2, Nat.sub_diag by lia. cbn [nth_error].
  f_equal.
  destruct (3 <=? List.length cs)%nat eqn:H3.
  - apply Nat.leb_le in H3. apply Nat.ltb_lt. lia.
  - apply Nat.leb_gt in H3. apply Nat.ltb_ge. lia.
Qed.

(** X13: the wallet's validator rejects the wallet's own redeem script:
    after a successful [generateWallet], [validateMultisigScript] applied to
    the result of [getRedeemScript] is false. *)
Theorem validateMultisigScript_rejects_cached_script {P : Provider}
    (HP : ProviderOK P)
    (m n : Z) (cfg : WalletConfig) (w : MultisigWallet) (s' : State) :
  constructor m n cfg = Ok w ->
  generateWallet (initial w) = (s', Ok tt) ->
  exists rs, getRedeemScript (this s') = Ok rs
             /\ validateMultisigScript rs = false.
Proof.
  intros Hc Hg.
  apply constructor_ok in Hc as (_ & _ & _ & Hk & _).
  apply generateWallet_ok in Hg
    as (kps & pk0 & rest & a1 & a2 & _ & _ & _ & Hthis & _).
  cbv zeta in Hthis.
  eexists. unfold getRedeemScript. rewrite Hthis.
  cbn [redeemScript set_addresses set_redeemScript].
  split; [reflexivity|].
  pose proof (p2pkh_script_decompiles HP pk0) as Hd. cbv zeta in Hd.
  rewrite (validateMultisigScript_chunks _
             [Op OPS.OP_DUP; Op OPS.OP_HASH160; Data (hash160 pk0);
              Op OPS.OP_EQUALVERIFY] (Op OPS.OP_CHECKSIG) Hd).
  reflexivity.
Qed.

Lemma rejects_cached_script_witness :
  exists rs, getRedeemScript (this example_state) = Ok rs
             /\ validateMultisigScript rs = false.
Proof.
  apply (validateMultisigScript_rejects_cached_script example_provider_ok
           2 3 example_config example_wallet example_state);
    vm_compute; reflexivity.
Defined.

Lemma validateMultisigScript_tail
    (cs : list chunk) :
  Forall plain_chunk cs ->
  (3 <= List.length cs)%nat ->
  validateMultisigScript (compile (cs ++ [Op OPS.OP_CHECKMULTISIG])) = true.
Proof.
  intros Hplain Hlen.
  rewrite (validateMultisigScript_chunks _ cs (Op OPS.OP_CHECKMULTISIG)).
  - apply andb_true_iff. split; [now apply Nat.leb_le | reflexivity].
  - apply decompile_compile. apply Forall_app. split; [exact Hplain|].
    constructor; [|constructor]. cbn. right. split; reflexivity.
Qed.

(** X14: [validateMultisigScript] looks at the number of elements and at
    the last opcode only.  Any script compiled from at least three ordinary
    elements (opcodes outside the push range, pushes of 2 to 75 bytes)
    followed by OP_CHECKMULTISIG is accepted, whatever those elements are. *)
Theorem validateMultisigScript_accepts_any_checkmultisig_tail
    (cs : list chunk) :
  Forall plain_chunk cs ->
  (3 <= List.length cs)%nat ->
  validateMultisigScript (compile (cs ++ [Op OPS.OP_CHECKMULTISIG])) = true.
Proof. apply validateMultisigScript_tail. Qed.

Lemma accepts_any_tail_witness :
  validateMultisigScript
    (compile ([Op OPS.OP_DUP; Op OPS.OP_DUP; Op OPS.OP_DUP]
              ++ [Op OPS.OP_CHECKMULTISIG])) = true.
Proof.
  apply (validateMultisigScript_accepts_any_checkmultisig_tail
           [Op OPS.OP_DUP; Op OPS.OP_DUP; Op OPS.OP_DUP]).
  - repeat apply Forall_cons; try apply Forall_nil; cbn; right; split; reflexivity.
  - cbn. lia.
Defined.

(** X15: a well-formed m-of-n script, OP_m, at least one key of 33 bytes
    (any push of 2 to 75 bytes), OP_n, OP_CHECKMULTISIG with m and n between
    1 and 16, passes [validateMultisigScript]; m, n and the number of keys
    need not agree. *)
Theorem validateMultisigScript_accepts_multisig
    (m n : Z) (pks : list Buffer) :
  1 <= m <= 16 -> 1 <= n <= 16 ->
  pks <> [] ->
  Forall (fun pk => (2 <= List.length pk <= 75)%nat) pks ->
  validateMultisigScript (compile (multisig_chunks m pks n)) = true.
Proof.
  intros Hm Hn Hne Hpks. unfold multisig_chunks.
  change [Op (OP_INT_BASE + n); Op OPS.OP_CHECKMULTISIG]
    with ([Op (OP_INT_BASE + n)] ++ [Op OPS.OP_CHECKMULTISIG]).
  rewrite !app_assoc.
  apply validateMultisigScript_tail.
  - repeat (apply Forall_app; split).
    + constructor; [|constructor]. cbn [plain_chunk]. right.
      unfold OP_INT_BASE, OPS.OP_RESERVED, OPS.OP_PUSHDATA4. lia.
    + apply Forall_forall. intros c Hc. apply in_map_iff in Hc as (pk & <- & Hpk).
      cbn. rewrite Forall_forall in Hpks. auto.
    + constructor; [|constructor]. cbn [plain_chunk]. right.
      unfold OP_INT_BASE, OPS.OP_RESERVED, OPS.OP_PUSHDATA4. lia.
  - rewrite !length_app, length_map. destruct pks; [congruence|]. cbn. lia.
Qed.

Lemma accepts_multisig_witness :
  validateMultisigScript
    (compile (multisig_chunks 2 (getPublicKeys (this example_state)) 3)) = true.
Proof.
  apply (validateMultisigScript_accepts_multisig 2 3
           (getPublicKeys (this example_state))); try lia.
  - vm_compute. discriminate.
  - vm_compute. repeat constructor.
Defined.

(** ** [createInsecureMultisig] *)

Lemma number_encode_small (k : Z) : 1 <= k <= 16 -> number_encode k = [k].
Proof.
  intros Hk.
  assert (H : k = 1 \/ k = 2 \/ k = 3 \/ k = 4 \/ k = 5 \/ k = 6 \/ k = 7
              \/ k = 8 \/ k = 9 \/ k = 10 \/ k = 11 \/ k = 12 \/ k = 13
              \/ k = 14 \/ k = 15 \/ k = 16) by lia.
  repeat (destruct H as [->|H]; [reflexivity|]). subst k. reflexivity.
Qed.

Lemma compile_app (a b : list chunk) : compile (a ++ b) = compile a ++ compile b.
Proof. unfold compile. apply flat_map_app. Qed.

Lemma compile_small_number (k : Z) :
  1 <= k <= 16 -> compile_chunk (Data [k]) = compile_chunk (Op (OP_INT_BASE + k)).
Proof.
  intros Hk. cbn [compile_chunk asMinimalOP].
  destruct (1 <=? k) eqn:H1; [|apply Z.leb_gt in H1; lia].
  destruct (k <=? 16) eqn:H2; [|apply Z.leb_gt in H2; lia].
  reflexivity.
Qed.

(** X16: for a policy with 1 <= m <= 16 and 1 <= n <= 16 and keys of 33
    bytes (any push of 2 to 75 bytes), [createInsecureMultisig] yields a
    script that decompiles to the keys, then OP_CHECKMULTISIG, then OP_m and
    OP_n: the two counts come after the operator and are written as small
    integer opcodes.  [validateMultisigScript] rejects it. *)
Theorem createInsecureMultisig_puts_counts_last (w : MultisigWallet) :
  1 <= requiredSignatures w <= 16 ->
  1 <= totalSigners w <= 16 ->
  Forall (fun pk => (2 <= List.length pk <= 75)%nat) (getPublicKeys w) ->
  decompile (createInsecureMultisig w)
  = Some (map Data (getPublicKeys w)
          ++ [Op OPS.OP_CHECKMULTISIG;
              Op (OP_INT_BASE + requiredSignatures w);
              Op (OP_INT_BASE + totalSigners w)])
  /\ validateMultisigScript (createInsecureMultisig w) = false.
Proof.
  intros Hm Hn Hpks.
  assert (Hc : createInsecureMultisig w
               = compile (map Data (getPublicKeys w)
                          ++ [Op OPS.OP_CHECKMULTISIG;
                              Op (OP_INT_BASE + requiredSignatures w);
                              Op (OP_INT_BASE + totalSigners w)])).
  { unfold createInsecureMultisig, getPublicKeys. rewrite !compile_app.
    f_equal. unfold compile. cbn [flat_map].
    rewrite !number_encode_small by assumption.
    rewrite !compile_small_number by assumption. reflexivity. }
  assert (Hd : decompile (createInsecureMultisig w)
               = Some (map Data (getPublicKeys w)
                       ++ [Op OPS.OP_CHECKMULTISIG;
                           Op (OP_INT_BASE + requiredSignatures w);
                           Op (OP_INT_BASE + totalSigners w)])).
  { rewrite Hc. apply decompile_compile. apply Forall_app. split.
    - apply Forall_forall. intros c Hin.
      apply in_map_iff in Hin as (pk & <- & Hpk).
      cbn. rewrite Forall_forall in Hpks. auto.
    - repeat apply Forall_cons; try apply Forall_nil; cbn [plain_chunk]; right;
        unfold OP_INT_BASE, OPS.OP_RESERVED, OPS.OP_PUSHDATA4,
               OPS.OP_CHECKMULTISIG; lia. }
  split; [exact Hd|].
  change [Op OPS.OP_CHECKMULTISIG; Op (OP_INT_BASE + requiredSignatures w);
          Op (OP_INT_BASE + totalSigners w)]
    with ([Op OPS.OP_CHECKMULTISIG; Op (OP_INT_BASE + requiredSignatures w)]
          ++ [Op (OP_INT_BASE + totalSigners w)]) in Hd.
  rewrite app_assoc in Hd.
  rewrite (validateMultisigScript_chunks _ _ _ Hd).
  apply andb_false_iff. right. apply Z.eqb_neq.
  unfold OP_INT_BASE, OPS.OP_RESERVED, OPS.OP_CHECKMULTISIG. lia.
Qed.

Lemma createInsecureMultisig_witness :
  decompile (createInsecureMultisig (this example_state))
  = Some (map Data (getPublicKeys (this example_state))
          ++ [Op OPS.OP_CHECKMULTISIG;
              Op (OP_INT_BASE + requiredSignatures (this example_state));
              Op (OP_INT_BASE + totalSigners (this example_state))])
  /\ validateMultisigScript (createInsecureMultisig (this example_state)) = false.
Proof.
  apply (createInsecureMultisig_puts_counts_last (this example_state)).
  - vm_compute. split; discriminate.
  - vm_compute. split; discriminate.
  - vm_compute. repeat constructor.
Defined.

(** ** [createWitness] *)

(** X17: [createWitness] never throws.  On a wallet on which
    [generateWallet] has not run its first element is undefined, where
    [getRedeemScript] throws; after a successful [generateWallet] the
    first element is the cached redeem script, and the signatures follow
    it in the order given. *)
Theorem createWitness_puts_script_first {P : Provider}
    (s : State) (signatures : list Buffer) :
  idle s ->
  createWitness (this s) signatures = None :: map Some signatures
  /\ forall s', generateWallet s = (s', Ok tt) ->
       exists rs, getRedeemScript (this s') = Ok rs
                  /\ createWitness (this s') signatures
                     = Some rs :: map Some signatures.
Proof.
  intros Hidle. apply idle_uninitialized in Hidle as (Hrs & _).
  unfold createWitness, getRedeemScript. rewrite Hrs.
  split; [reflexivity|]. intros s' Hg.
  apply generateWallet_ok in Hg
    as (kps & pk0 & rest & a1 & a2 & _ & _ & _ & Hthis & _).
  cbv zeta in Hthis. rewrite Hthis.
  cbn [redeemScript set_addresses set_redeemScript]. eauto.
Qed.

Lemma createWitness_witness :
  createWitness example_wallet [[48; 1]; [48; 2]]
  = None :: map Some [[48; 1]; [48; 2]]
  /\ exists rs, getRedeemScript (this example_state) = Ok rs
                /\ createWitness (this example_state) [[48; 1]; [48; 2]]
                   = Some rs :: map Some [[48; 1]; [48; 2]].
Proof.
  destruct (createWitness_puts_script_first (P := example_provider)
              (initial example_wallet) [[48; 1]; [48; 2]]) as (H1 & H2).
  - apply (idle_new 2 3 example_config). reflexivity.
  - split; [exact H1|]. apply H2. vm_compute. reflexivity.
Defined.

(** ** [getMnemonics] and a later [generateKeyPair] *)

Lemma slot_keyPair_words {P : Provider} (HP : ProviderOK P)
    (net : Network) (k : nat) (i : Z) (kp : KeyPairInfo) :
  slot_keyPair net k i = Ok kp ->
  List.length (split " " (mnemonic kp)) = 12%nat.
Proof.
  intros H.
  assert (Hlen : List.length (randomBytes k 16) = 16%nat)
    by (rewrite (randomBytes_length P HP); [reflexivity | lia]).
  destruct (entropyToMnemonic_128 HP _ Hlen) as (ws & Hws & Hn & Hall).
  unfold slot_keyPair in H. rewrite Hws in H.
  destruct (bip32_fromSeed _ _); [|discriminate].
  destruct (bip32_derivePath _ _); [|discriminate].
  destruct (bip32_privateKey _); [|discriminate].
  inversion H; subst kp; clear H. cbn [mnemonic].
  rewrite split_join; [exact Hn | | exact Hall].
  destruct ws; discriminate.
Qed.

Lemma slots_words {P : Provider} (HP : ProviderOK P)
    (net : Network) (k : nat) (i : Z) (kps : list KeyPairInfo) :
  slots net k i kps ->
  Forall (fun kp => List.length (split " " (mnemonic kp)) = 12%nat) kps.
Proof.
  induction 1 as [|k i kp kps Hkp Hs IH]; constructor; auto.
  eapply slot_keyPair_words; eauto.
Qed.

(** X18: after a successful [generateWallet] on a new wallet,
    [getMnemonics] returns one phrase per signer and every phrase has
    exactly twelve words. *)
Theorem getMnemonics_returns_twelve_word_phrases {P : Provider}
    (HP : ProviderOK P)
    (m n : Z) (cfg : WalletConfig) (w : MultisigWallet) (s' : State) :
  constructor m n cfg = Ok w ->
  generateWallet (initial w) = (s', Ok tt) ->
  List.length (getMnemonics (this s')) = Z.to_nat n
  /\ Forall (fun phrase => List.length (split " " phrase) = 12%nat)
            (getMnemonics (this s')).
Proof.
  intros Hc Hg.
  apply constructor_ok in Hc as (_ & Hn & _ & Hk & _).
  apply generateWallet_ok in Hg
    as (kps & pk0 & rest & a1 & a2 & Hlen & Hslots & _ & Hthis & _).
  cbn in Hlen, Hslots, Hthis. rewrite Hk in Hthis. cbn in Hthis.
  unfold getMnemonics. rewrite Hthis.
  cbn [keyPairs set_addresses set_redeemScript set_keyPairs].
  split; [rewrite length_map; congruence|].
  apply Forall_map. eapply slots_words; eauto.
Qed.

Lemma getMnemonics_witness :
  List.length (getMnemonics (this example_state)) = Z.to_nat 3
  /\ Forall (fun phrase => List.length (split " " phrase) = 12%nat)
            (getMnemonics (this example_state)).
Proof.
  apply (getMnemonics_returns_twelve_word_phrases example_provider_ok
           2 3 example_config example_wallet example_state);
    vm_compute; reflexivity.
Defined.

(** X19: a [generateKeyPair] call made after [generateWallet] generates a
    new key, it does not look one up.  On a wallet generated for n signers
    it makes draw number n from the random source (the wallet's own records
    used draws 0 to n - 1), returns the record of that draw for the path
    [index], and leaves the wallet object, its key list included,
    unchanged. *)
Theorem generateKeyPair_after_generateWallet_is_fresh {P : Provider}
    (m n : Z) (cfg : WalletConfig) (w : MultisigWallet) (s : State) (index : Z) :
  constructor m n cfg = Ok w ->
  generateWallet (initial w) = (s, Ok tt) ->
  snd (generateKeyPair index s)
  = slot_keyPair networks.testnet (Z.to_nat n) index
  /\ this (fst (generateKeyPair index s)) = this s
  /\ draws (fst (generateKeyPair index s)) = S (Z.to_nat n)
  /\ forall j kp, nth_error (keyPairs (this s)) j = Some kp ->
       (j < Z.to_nat n)%nat
       /\ slot_keyPair networks.testnet j (Z.of_nat j) = Ok kp.
Proof.
  intros Hc Hg.
  pose proof (generateWallet_draws _ _ Hg) as Hd.
  apply constructor_ok in Hc as (_ & Hn & Hnet0 & Hk & _).
  cbn [this draws initial] in Hd. rewrite Hn in Hd.
  apply generateWallet_ok in Hg
    as (kps & pk0 & rest & a1 & a2 & Hlen & Hslots & _ & Hthis & _).
  cbn in Hlen, Hslots, Hthis. rewrite Hk in Hthis. cbn in Hthis.
  rewrite Hnet0 in Hslots. rewrite Hn in Hlen.
  rewrite generateKeyPair_result, generateKeyPair_this, generateKeyPair_draws.
  rewrite Hd. rewrite Hthis at 1. cbn [network set_addresses set_redeemScript set_keyPairs].
  rewrite Hnet0.
  split; [reflexivity|]. split; [reflexivity|]. split; [reflexivity|].
  intros j kp Hj. rewrite Hthis in Hj. cbn in Hj. split.
  - rewrite <- Hlen. apply nth_error_Some. congruence.
  - apply (slots_nth _ _ _ _ Hslots) in Hj. exact Hj.
Qed.

Lemma generateKeyPair_fresh_witness :
  snd (@generateKeyPair example_provider 0 example_state)
  = @slot_keyPair example_provider networks.testnet (Z.to_nat 3) 0
  /\ this (fst (@generateKeyPair example_provider 0 example_state))
     = this example_state
  /\ draws (fst (@generateKeyPair example_provider 0 example_state))
     = S (Z.to_nat 3)
  /\ forall j kp, nth_error (keyPairs (this example_state)) j = Some kp ->
       (j < Z.to_nat 3)%nat
       /\ @slot_keyPair example_provider networks.testnet j (Z.of_nat j) = Ok kp.
Proof.
  apply (generateKeyPair_after_generateWallet_is_fresh (P := example_provider)
           2 3 example_config example_wallet example_state 0);
    vm_compute; reflexivity.
Defined.

(** ** A failed [generateWallet] *)




